(** * sign-symmetry: the training script [train.py]

    A shallow embedding of the parameter-group construction, the learning-rate
    schedule, the set-up checks, checkpoint writing, the epoch loop and the
    metrics of [train.py], with the properties its specification states
    about them.  Numbers are exact rationals where only their order and
    their algebra matter; the schedule is also given on binary64 floats,
    where the specification names decimal values. *)

From Stdlib Require Import ZArith QArith Qpower Lia String Ascii Bool List.
From Stdlib Require Import DecimalString DecimalN.
From Stdlib Require Import Floats.
From stdpp Require Import gmap strings list.

Local Open Scope string_scope.
Local Open Scope list_scope.
Local Open Scope Z_scope.

(** ** Python strings *)

Module PyStr.

(** [s.startswith(pre)]. *)
Definition startswith (s pre : string) : bool := String.prefix pre s.

(** [s.rfind(sub)] as an optional index: the highest index at which [sub]
    occurs in [s]. *)
Fixpoint rfind_index (sub s : string) : option nat :=
  match s with
  | EmptyString => if String.prefix sub EmptyString then Some 0%nat else None
  | String _ s' =>
      match rfind_index sub s' with
      | Some j => Some (S j)
      | None => if String.prefix sub s then Some 0%nat else None
      end
  end.

(** [s.rfind(sub)]: the highest index of an occurrence, [-1] when there is
    none. *)
Definition rfind (s sub : string) : Z :=
  match rfind_index sub s with
  | Some j => Z.of_nat j
  | None => -1
  end.

(** [len(s)]. *)
Definition len (s : string) : Z := Z.of_nat (String.length s).

(** "[s] ends with [suf]". *)
Definition ends_with (s suf : string) : Prop := exists pre, s = pre +:+ suf.

(** [s.endswith(suf)]: [suf] is [s] or ends what follows the first character
    of [s]. *)
Fixpoint endswith (s suf : string) : bool :=
  String.eqb s suf
  || match s with
     | EmptyString => false
     | String _ s' => endswith s' suf
     end.

End PyStr.

(** ** Bias test of the No-Sign-Change split (train.py, line 219) *)

(** [nparam[0].rfind('bias') == len(nparam[0]) - 4]. *)
Definition is_bias_name (name : string) : bool :=
  PyStr.rfind name "bias" =? PyStr.len name - 4.

(** ** Errors and the error monad *)

(** The Python exceptions the script can stop with. *)
Inductive exn : Type :=
  | AssertionError (msg : string)
  | ValueError (msg : string)
  | KeyError (key : string)
  | AttributeError (attr : string)
  | UnboundLocalError (var : string)
  | IOError (msg : string)
  | FileNotFoundError (path : string)
  | SameFileError (path : string)
  | ZeroDivisionError
  | OverflowError.

Inductive result (A : Type) : Type :=
  | Ok (a : A)
  | Raise (e : exn).
Arguments Ok {A} a.
Arguments Raise {A} e.

Definition bind {A B : Type} (r : result A) (k : A -> result B) : result B :=
  match r with
  | Ok a => k a
  | Raise e => Raise e
  end.

Notation "'try' x <- r 'in' k" := (bind r (fun x => k))
  (at level 10, x name, r at level 100, k at level 200).

(** The errors the script raises on purpose to reject a configuration: the
    [assert] on the architecture and the [ValueError] on pretrained weights. *)
Definition is_ConfigurationError (e : exn) : bool :=
  match e with
  | AssertionError _ | ValueError _ => true
  | _ => false
  end.

(** ** Command line arguments and models *)

(** A parameter is a mutable tensor object; the script only compares
    parameters by identity ([is]), so a parameter is its object reference. *)
Definition ref := nat.

Definition named_param : Type := string * ref.

Record Args : Type := {
  algo : string;
  last_layer_algo : string;
  batch_manhattan : bool;
  last_layer_batch_manhattan : bool;
  no_sign_change : bool;
  last_layer_no_sign_change : bool;
  lr : Q;
  llr : Q;
  lr_decay : Z;
  save_every_epoch : bool;
  save_every_n_epochs : Z;
  prefix : string;
  arch : string;
  epochs : Z;
  start_epoch : Z;
  resume : string;
  evaluate : bool;
  pretrained : bool;
  world_size : Z;
  gpu : option Z
}.

(** What the script reads of a model object once it has been moved to its
    device: the enumeration [named_parameters()], and the enumerations of
    the sub-modules [fc] and [classifier[-1]] where the model has them.
    The wrappers of lines 162-172 ([DataParallel], [DistributedDataParallel])
    keep the parameter objects; through [model.module] the script reaches
    the same sub-modules as without a wrapper. *)
Record Model : Type := {
  named_parameters : list named_param;
  fc : option (list named_param);
  classifier_last : option (list named_param)
}.

(** The two model registries, [pytorch_models.__dict__] and
    [models.__dict__], which are not part of the script: a constructor call
    either yields a model or stops with an error of its own. *)
Record Registry : Type := {
  reference_model : string -> bool -> result Model;
  asymmetric_model : string -> string -> string -> result Model
}.

(** Lines 142-160: the model is created. *)
Definition create_model (reg : Registry) (args : Args) : result Model :=
  if String.eqb (algo args) "None" then
    if pretrained args then reference_model reg (arch args) true
    else reference_model reg (arch args) false
  else
    if negb (PyStr.startswith (arch args) "resnet"
             || PyStr.startswith (arch args) "alexnet")
    then Raise (AssertionError "only resnets or alexnet supported")
    else if pretrained args
    then Raise (ValueError "Using non-standard models but pretrained set to True")
    else asymmetric_model reg (arch args) (algo args) (last_layer_algo args).

Definition getattr (attr : string) (o : option (list named_param))
  : result (list named_param) :=
  match o with
  | Some l => Ok l
  | None => Raise (AttributeError attr)
  end.

(** [args.distributed = args.world_size > 1]. *)
Definition distributed (args : Args) : bool := 1 <? world_size args.

(** Lines 174-190: [model_last_named_parameters].  No branch assigns the
    variable for an architecture that is neither a resnet nor an alexnet, and
    line 192 then reads an unbound local. *)
Definition model_last_named_parameters (args : Args) (model : Model)
  : result (list named_param) :=
  match gpu args with
  | Some _ =>
      if PyStr.startswith (arch args) "resnet" then getattr "fc" (fc model)
      else if PyStr.startswith (arch args) "alexnet"
      then getattr "classifier" (classifier_last model)
      else Raise (UnboundLocalError "model_last_named_parameters")
  | None =>
      if PyStr.startswith (arch args) "resnet" then getattr "fc" (fc model)
      else if PyStr.startswith (arch args) "alexnet" then
        if distributed args then getattr "classifier" (classifier_last model)
        else getattr "classifier" (classifier_last model)
      else Raise (UnboundLocalError "model_last_named_parameters")
  end.

(** [any([nparam[1] is p_last for p_last in model_last_parameters])]. *)
Definition is_any (p : ref) (ps : list ref) : bool :=
  existsb (fun p_last => Nat.eqb p p_last) ps.

(** Lines 194-196: [model_nonlast_named_parameters]. *)
Definition model_nonlast_named_parameters
    (model : Model) (model_last_parameters : list ref) : list named_param :=
  List.filter (fun nparam => negb (is_any (snd nparam) model_last_parameters))
    (named_parameters model).

(** ** Parameter groups (lines 202-236) *)

Record ParamGroup : Type := {
  params : list ref;
  group_lr : Q;
  group_batch_manhattan : bool;
  group_no_sign_change : bool
}.

(** Lines 216-222: the loop that splits the named parameters of a set into
    [bias_params] and [nonbias_params], both lists grown by [append]. *)
Definition split_bias (named_params : list named_param) : list ref * list ref :=
  fold_left
    (fun (acc : list ref * list ref) (nparam : named_param) =>
       if is_bias_name (fst nparam)
       then (fst acc ++ [snd nparam], snd acc)
       else (fst acc, snd acc ++ [snd nparam]))
    named_params ([], []).

(** Lines 215-227: [paramss] and [use_nscs] of one set. *)
Definition paramss_use_nscs (use_nsc : bool) (params_ : list ref)
    (named_params : list named_param) : list (list ref) * list bool :=
  if use_nsc then
    let '(bias_params, nonbias_params) := split_bias named_params in
    ([bias_params; nonbias_params], [false; true])
  else ([params_], [false]).

(** One entry of the [zip] of line 204. *)
Record SetConfig : Type := {
  use_bm : bool;
  use_nsc : bool;
  set_params : list ref;
  set_named_params : list named_param;
  set_lr : Q;
  label : string
}.

(** The accumulators [param_groups] and [lrs]. *)
Definition builder_state : Type := list ParamGroup * list Q.

(** Lines 229-236: the inner loop appends one group and one base rate per
    entry of [zip(paramss, use_nscs)]. *)
Definition append_groups (c : SetConfig) (st : builder_state) : builder_state :=
  let '(paramss, use_nscs) :=
    paramss_use_nscs (use_nsc c) (set_params c) (set_named_params c) in
  fold_left
    (fun (st : builder_state) (pu : list ref * bool) =>
       (fst st ++ [{| params := fst pu;
                      group_lr := set_lr c;
                      group_batch_manhattan := use_bm c;
                      group_no_sign_change := snd pu |}],
        snd st ++ [set_lr c]))
    (combine paramss use_nscs) st.

(** Lines 204-211: the two sets in the order of the [zip]. *)
Definition set_configs (args : Args)
    (nonlast_named last_named : list named_param) : list SetConfig :=
  [ {| use_bm := batch_manhattan args;
       use_nsc := no_sign_change args;
       set_params := map snd nonlast_named;
       set_named_params := nonlast_named;
       set_lr := lr args;
       label := "non-last" |};
    {| use_bm := last_layer_batch_manhattan args;
       use_nsc := last_layer_no_sign_change args;
       set_params := map snd last_named;
       set_named_params := last_named;
       set_lr := llr args;
       label := "last" |} ].

(** Lines 202-236: the outer loop, from empty accumulators. *)
Definition build_param_groups (args : Args)
    (nonlast_named last_named : list named_param) : builder_state :=
  fold_left (fun st c => append_groups c st)
    (set_configs args nonlast_named last_named) ([], []).

(** Lines 192-236 on a model: the parameter sets, then the groups. *)
Definition groups_of_model (args : Args) (model : Model)
    (last_named : list named_param) : builder_state :=
  let model_last_parameters := map snd last_named in
  let nonlast_named := model_nonlast_named_parameters model model_last_parameters in
  build_param_groups args nonlast_named last_named.

(** Lines 141-238: set-up up to the optimizer's groups. *)
Definition setup (reg : Registry) (args : Args) : result builder_state :=
  try model <- create_model reg args in
  try last_named <- model_last_named_parameters args model in
  Ok (groups_of_model args model last_named).

(** ** Schedule (adjust_learning_rate, lines 485-489) *)

(** [a // b] on Python integers: floor division, an error on a zero divisor. *)
Definition floordiv (a b : Z) : result Z :=
  if b =? 0 then Raise ZeroDivisionError else Ok (a / b).

(** [0.1 ** k] for a Python integer [k], its value read as a rational.  The
    power of a float raises [OverflowError] when the exponent does not fit a
    float (from [2^1024 - 2^970] on) or the result exceeds the largest float,
    which is about [1.8e308]: for the base [0.1], from [k = -309] down.  (A
    result too small for a float is no error.) *)
Definition pow_tenth (k : Z) : result Q :=
  if (k <=? -309) || (2 ^ 1024 - 2 ^ 970 <=? k) then Raise OverflowError
  else Ok ((1 # 10) ^ k)%Q.

(** The exponents at which [0.1 ** k] is a float. *)
Definition power_in_range (k : Z) : Prop := -309 < k < 2 ^ 1024 - 2 ^ 970.

(** [lr0 * (0.1 ** (epoch // lr_decay))]: the errors of the division and of
    the power as Python raises them, the value of the floats read as
    rationals (for the rounding of the floats see [Binary64] below). *)
Definition decayed_lr (lr0 : Q) (epoch lr_decay : Z) : result Q :=
  try k <- floordiv epoch lr_decay in
  try p <- pow_tenth k in
  Ok (lr0 * p)%Q.

(** [param_group['lr'] = lr]. *)
Definition set_group_lr (g : ParamGroup) (new_lr : Q) : ParamGroup :=
  {| params := params g;
     group_lr := new_lr;
     group_batch_manhattan := group_batch_manhattan g;
     group_no_sign_change := group_no_sign_change g |}.

(** The loop over [zip(optimizer.param_groups, lr0s)]: it stops at the shorter
    list and leaves the groups beyond it as they are. *)
Fixpoint adjust_learning_rate (param_groups : list ParamGroup) (epoch : Z)
    (lr0s : list Q) (lr_decay : Z) : result (list ParamGroup) :=
  match param_groups, lr0s with
  | param_group :: groups', lr0 :: lr0s' =>
      try new_lr <- decayed_lr lr0 epoch lr_decay in
      try rest <- adjust_learning_rate groups' epoch lr0s' lr_decay in
      Ok (set_group_lr param_group new_lr :: rest)
  | _, _ => Ok param_groups
  end.

(** ** The schedule on binary64 numbers (line 488) *)

Module Binary64.

(** The float literals of line 488 and of the specification's examples, as
    the binary64 numbers Python reads them as: [0.1], [0.01] and [0.001]. *)
Definition tenth : float := 0x1.999999999999ap-4.
Definition hundredth : float := 0x1.47ae147ae147bp-7.
Definition thousandth : float := 0x1.0624dd2f1a9fcp-10.

(** [float(k)] of a Python integer: the nearest float, ties to even, and an
    [OverflowError] when that is not finite. *)
Definition float_of_int (k : Z) : result float :=
  let f := SF2Prim (binary_normalize prec emax k 0 false) in
  if is_infinity f then Raise OverflowError else Ok f.

(** The C library's [pow], which the power of two floats calls and which is
    not part of the script: its result and the error number it leaves. *)
Inductive errno : Type := ENONE | ERANGE | EOTHER.

Record Libm : Type := {
  pow : float -> float -> float * errno
}.

(** The interpreter's adjustment of the error number: an infinite result is
    a range error, an underflow to zero is none. *)
Definition adjust_erange (x : float) (e : errno) : errno :=
  match e with
  | ENONE => if is_infinity x then ERANGE else ENONE
  | ERANGE => if (x =? 0)%float then ENONE else ERANGE
  | EOTHER => EOTHER
  end.

(** [0.1 ** k] for a Python integer [k]: the exponent is converted, a zero
    exponent gives [1.0] without a call of [pow], and a range error left by
    [pow] is an [OverflowError].  (The other special cases of the power do
    not arise for the base [0.1].) *)
Definition tenth_pow (libm : Libm) (k : Z) : result float :=
  try iw <- float_of_int k in
  if (iw =? 0)%float then Ok 1%float
  else
    let '(ix, e) := pow libm tenth iw in
    match adjust_erange ix e with
    | ENONE => Ok ix
    | ERANGE => Raise OverflowError
    | EOTHER => Raise (ValueError "pow")
    end.

(** [lr0 * (0.1 ** (epoch // lr_decay))]. *)
Definition decayed_lr (libm : Libm) (lr0 : float) (epoch lr_decay : Z)
  : result float :=
  try k <- floordiv epoch lr_decay in
  try p <- tenth_pow libm k in
  Ok (lr0 * p)%float.

(** A parameter group with its rate as the float it is. *)
Record ParamGroup : Type := {
  params : list ref;
  lr : float;
  batch_manhattan : bool;
  no_sign_change : bool
}.

(** [param_group['lr'] = lr]. *)
Definition set_group_lr (g : ParamGroup) (new_lr : float) : ParamGroup :=
  {| params := params g;
     lr := new_lr;
     batch_manhattan := batch_manhattan g;
     no_sign_change := no_sign_change g |}.

(** The loop over [zip(optimizer.param_groups, lr0s)]. *)
Fixpoint adjust_learning_rate (libm : Libm) (param_groups : list ParamGroup)
    (epoch : Z) (lr0s : list float) (lr_decay : Z) : result (list ParamGroup) :=
  match param_groups, lr0s with
  | param_group :: groups', lr0 :: lr0s' =>
      try new_lr <- decayed_lr libm lr0 epoch lr_decay in
      try rest <- adjust_learning_rate libm groups' epoch lr0s' lr_decay in
      Ok (set_group_lr param_group new_lr :: rest)
  | _, _ => Ok param_groups
  end.

(** A [pow] that is exact at the exponent 1 and rounds the square correctly
    at the exponent 2, as the C libraries in use are; for the examples. *)
Definition sample_libm : Libm :=
  {| pow := fun x y =>
       if (y =? 1)%float then (x, ENONE)
       else if (y =? 2)%float then ((x * x)%float, ENONE)
       else (nan, EOTHER) |}.

(** One group with the default rate [0.1]. *)
Definition sample_group : ParamGroup :=
  {| params := [1%nat]; lr := tenth;
     batch_manhattan := false; no_sign_change := false |}.

End Binary64.

(** ** Checkpoint files (save_checkpoint, lines 455-463) *)

(** Serialised tensors of a state dict; their content is opaque here. *)
Definition blob : Type := list Q.

(** [save_dict] of lines 351-357. *)
Record Checkpoint : Type := {
  ck_epoch : Z;
  ck_arch : string;
  ck_state_dict : blob;
  ck_best_prec1 : Q;
  ck_optimizer : blob
}.

(** A directory is known by its identity; a file by its directory and its
    name in it. *)
Definition dir := nat.
Definition loc : Type := dir * string.
Abbreviation FS := (gmap loc Checkpoint).

(** The process's view of the file tree: its working directory, the
    directory a path string names, and the file a path with separators
    names from a directory. *)
Record Paths : Type := {
  cwd : dir;
  dir_of : string -> dir;
  walk : dir -> string -> loc
}.

(** Does the string contain the separator ["/"]? *)
Fixpoint has_sep (s : string) : bool :=
  match s with
  | EmptyString => false
  | String c s' => Ascii.eqb c "/" || has_sep s'
  end.

(** The file that a relative path names from directory [d]: a plain name is
    the entry of that name in [d]. *)
Definition file_at (px : Paths) (d : dir) (path : string) : loc :=
  if has_sep path then walk px d path else (d, path).

(** The file named by the bare relative path [filename], which the system
    resolves from the working directory. *)
Definition bare (px : Paths) (filename : string) : loc :=
  file_at px (cwd px) filename.

(** The file named by [os.path.join(prefix, filename)]. *)
Definition joined (px : Paths) (prefix filename : string) : loc :=
  file_at px (dir_of px prefix) filename.

(** [torch.save(state, path)]: the directory exists ([os.makedirs], line 116),
    the file is created or overwritten. *)
Definition torch_save (state : Checkpoint) (l : loc) (fs : FS) : FS * result unit :=
  (<[l := state]> fs, Ok tt).

(** [shutil.copyfile(src, dst)]: an error if [src] does not exist or if both
    name the same file; [dst] is created or overwritten otherwise. *)
Definition copyfile (src_name : string) (src dst : loc) (fs : FS) : FS * result unit :=
  match fs !! src with
  | None => (fs, Raise (FileNotFoundError src_name))
  | Some c =>
      if decide (src = dst) then (fs, Raise (SameFileError src_name))
      else (<[dst := c]> fs, Ok tt)
  end.

(** Sequencing of file actions: the files written before an exception stay. *)
Definition and_then (a b : FS -> FS * result unit) (fs : FS) : FS * result unit :=
  match a fs with
  | (fs', Ok _) => b fs'
  | (fs', Raise e) => (fs', Raise e)
  end.

Definition when (c : bool) (a : FS -> FS * result unit) (fs : FS) : FS * result unit :=
  if c then a fs else (fs, Ok tt).

(** ['%03d' % epoch]: at least three characters, padded with zeros after the
    sign. *)
Definition decimal (n : Z) : string :=
  NilZero.string_of_uint (N.to_uint (Z.to_N n)).

Fixpoint zeros (k : nat) : string :=
  match k with
  | O => ""
  | S k' => String "0" (zeros k')
  end.

Definition zfill (width : nat) (s : string) : string :=
  zeros (width - String.length s) +:+ s.

Definition format_03d (n : Z) : string :=
  if n <? 0 then "-" +:+ zfill 2 (decimal (- n)) else zfill 3 (decimal n).

Definition snapshot_due (args : Args) (epoch : Z) : bool :=
  save_every_epoch args
  || ((0 <? save_every_n_epochs args)
      && (epoch mod save_every_n_epochs args =? 0)).

(** [save_checkpoint(state, is_best, epoch, filename)]. *)
Definition save_checkpoint (px : Paths) (args : Args) (state : Checkpoint)
    (is_best : bool) (epoch : Z) (filename : string) : FS -> FS * result unit :=
  and_then (torch_save state (joined px (prefix args) filename))
    (and_then
       (when is_best
          (copyfile filename (bare px filename)
             (joined px (prefix args) "model_best.pth.tar")))
       (when (snapshot_due args epoch)
          (copyfile filename (bare px filename)
             (joined px (prefix args)
                ("epoch" +:+ format_03d epoch +:+ ".pth.tar"))))).

(** ** The epoch loop and resuming (lines 241-253 and 337-358) *)

(** What training and validation do in each epoch; the model and the data
    are outside the script.  [train()] of an epoch returns or stops with an
    exception (of the model, of the loader, or the [ZeroDivisionError] of
    [i % args.print_freq] at line 399 under [--print-freq 0]), and so does
    [validate()] (line 440), which otherwise returns the precision
    [prec1_of]; [evaluate_raises] is [validate()] of an evaluation-only
    run. *)
Record Training : Type := {
  prec1_of : Z -> Q;
  state_dict_after : Z -> blob;
  optimizer_after : Z -> blob;
  train_raises : Z -> option exn;
  validate_raises : Z -> option exn;
  evaluate_raises : option exn
}.

(** The state the loop threads: the global [best_prec1], the optimizer's
    groups, the files, and (for the statements only) the epochs completed:
    trained, validated and saved by [torch.save]. *)
Record RunState : Type := {
  best_prec1 : Q;
  param_groups : list ParamGroup;
  files : FS;
  trained : list Z
}.

(** [a > b] and [max(a, b)] of Python on numbers. *)
Definition gt (a b : Q) : bool := negb (Qle_bool a b).
Definition py_max (a b : Q) : Q := if gt b a then b else a.

(** Lines 351-357: [save_dict] after epoch [epoch] with the best so far. *)
Definition save_dict (args : Args) (tr : Training) (epoch : Z) (best : Q)
  : Checkpoint :=
  {| ck_epoch := epoch + 1;
     ck_arch := arch args;
     ck_state_dict := state_dict_after tr epoch;
     ck_best_prec1 := best;
     ck_optimizer := optimizer_after tr epoch |}.

(** The state after the schedule has set the rates of the groups. *)
Definition with_groups (st : RunState) (groups' : list ParamGroup) : RunState :=
  {| best_prec1 := best_prec1 st; param_groups := groups';
     files := files st; trained := trained st |}.

(** Lines 338-358: one iteration of the loop.  An exception of the schedule,
    of [train()] or of [validate()] ends it before [best_prec1] is touched
    and before any file is written. *)
Definition epoch_body (px : Paths) (args : Args) (tr : Training) (lrs : list Q)
    (epoch : Z) (st : RunState) : RunState * result unit :=
  match adjust_learning_rate (param_groups st) epoch lrs (lr_decay args) with
  | Raise e => (st, Raise e)
  | Ok groups' =>
      match train_raises tr epoch with
      | Some e => (with_groups st groups', Raise e)
      | None =>
          match validate_raises tr epoch with
          | Some e => (with_groups st groups', Raise e)
          | None =>
              let prec1 := prec1_of tr epoch in
              let is_best := gt prec1 (best_prec1 st) in
              let best := py_max prec1 (best_prec1 st) in
              let '(fs', r) :=
                save_checkpoint px args (save_dict args tr epoch best) is_best
                  epoch "checkpoint.pth.tar" (files st) in
              ({| best_prec1 := best; param_groups := groups';
                  files := fs'; trained := trained st ++ [epoch] |}, r)
          end
      end
  end.

(** The epoch goes through the schedule, [train()] and [validate()] without
    an exception. *)
Definition epoch_returns (args : Args) (tr : Training) (e : Z) : Prop :=
  lr_decay args <> 0 /\ power_in_range (e / lr_decay args) /\
  train_raises tr e = None /\ validate_raises tr e = None.

(** [range(a, b)]. *)
Definition py_range (a b : Z) : list Z :=
  map (fun i => a + Z.of_nat i) (seq 0 (Z.to_nat (b - a))).

(** The [for] loop over a list of epochs; an exception ends it. *)
Fixpoint epoch_loop (px : Paths) (args : Args) (tr : Training) (lrs : list Q)
    (es : list Z) (st : RunState) : RunState * result unit :=
  match es with
  | [] => (st, Ok tt)
  | epoch :: es' =>
      match epoch_body px args tr lrs epoch st with
      | (st', Ok _) => epoch_loop px args tr lrs es' st'
      | (st', Raise e) => (st', Raise e)
      end
  end.

(** Lines 241-253: the start epoch and [best_prec1] after the optional
    resume; without it they are [args.start_epoch] and the initial [0]. *)
Definition resume_from (px : Paths) (args : Args) (fs : FS) : result (Z * Q) :=
  if String.eqb (resume args) "" then Ok (start_epoch args, 0%Q)
  else
    match fs !! joined px (prefix args) (resume args) with
    | Some checkpoint => Ok (ck_epoch checkpoint, ck_best_prec1 checkpoint)
    | None => Raise (IOError "=> no checkpoint found")
    end.

(** Lines 240-358 after set-up: resume, then evaluate only or train. *)
Definition run (px : Paths) (args : Args) (tr : Training)
    (groups : builder_state) (fs : FS) : RunState * result unit :=
  match resume_from px args fs with
  | Raise e =>
      ({| best_prec1 := 0%Q; param_groups := fst groups;
          files := fs; trained := [] |}, Raise e)
  | Ok (start, best) =>
      let st := {| best_prec1 := best; param_groups := fst groups;
                   files := fs; trained := [] |} in
      if evaluate args then
        (st, match evaluate_raises tr with Some e => Raise e | None => Ok tt end)
      else epoch_loop px args tr (snd groups) (py_range start (epochs args)) st
  end.

(** ** The update step of the optimizer *)

Module UpdateEngine.

Definition tensor : Type := list Q.

(** Modelled from the spec: the elementwise [sign] used by the optimizer
    [BMNSC_SGD] (module [optim.bm_nsc_sgd], imported at line 38 and missing
    from the sources): +1, -1, or 0 when exactly zero. *)
Definition sgn (x : Q) : Z := Z.sgn (Qnum x).

(** Modelled from the spec: step 1 of the missing [BMNSC_SGD.step], weight
    decay [g <- g + wd * p], skipped if [wd == 0]. *)
Definition weight_decay (wd g p : Q) : Q :=
  if Qeq_bool wd 0 then g else (g + wd * p)%Q.

(** Modelled from the spec: step 2 of the missing [BMNSC_SGD.step], the
    momentum buffer [v <- mu * v + g]. *)
Definition momentum (mu v g : Q) : Q := (mu * v + g)%Q.

(** Modelled from the spec: step 3 of the missing [BMNSC_SGD.step] before
    the overlay, [delta = lr * v] (plain) or [delta = lr * sign(v)] (Batch
    Manhattan). *)
Definition policy_delta (bm : bool) (rate v : Q) : Q :=
  if bm then (rate * inject_Z (sgn v))%Q else (rate * v)%Q.

(** Modelled from the spec: the test of the No-Sign-Change overlay of the
    missing [BMNSC_SGD.step], whether [p - delta] would have a different
    arithmetic sign than [p]. *)
Definition sign_flips (p delta : Q) : bool :=
  negb (sgn (p - delta) =? sgn p).

(** Modelled from the spec: the No-Sign-Change overlay of the missing
    [BMNSC_SGD.step]; where the sign would flip the element's update is
    clamped, [delta_i <- p_i]. *)
Definition overlay (nsc : bool) (p delta : Q) : Q :=
  if nsc && sign_flips p delta then p else delta.

(** Modelled from the spec: the step [delta] of one element in the missing
    [BMNSC_SGD.step], from the new velocity. *)
Definition delta_elem (group : ParamGroup) (p v' : Q) : Q :=
  overlay (group_no_sign_change group) p
    (policy_delta (group_batch_manhattan group) (group_lr group) v').

(** Modelled from the spec: steps 1 to 4 of the missing [BMNSC_SGD.step] on
    one element; the result is the new parameter value and the new velocity. *)
Definition step_elem (mu wd : Q) (group : ParamGroup) (p g v : Q) : Q * Q :=
  let v' := momentum mu v (weight_decay wd g p) in
  ((p - delta_elem group p v')%Q, v').

(** Modelled from the spec: the elementwise traversal of a parameter, its
    gradient and its buffer in the missing [BMNSC_SGD.step]; a shape
    mismatch fails loudly. *)
Fixpoint zip3_with {A : Type} (f : Q -> Q -> Q -> A) (p g v : tensor)
  : result (list A) :=
  match p, g, v with
  | [], [], [] => Ok []
  | x :: p', y :: g', z :: v' =>
      try r <- zip3_with f p' g' v' in Ok (f x y z :: r)
  | _, _, _ => Raise (ValueError "shape mismatch")
  end.

(** Modelled from the spec: the momentum buffer of a parameter in the
    missing [BMNSC_SGD], zero-initialized on first touch. *)
Definition buffer_of (p : tensor) (buf : option tensor) : tensor :=
  match buf with
  | Some v => v
  | None => repeat 0%Q (length p)
  end.

(** Modelled from the spec: the missing [BMNSC_SGD.step] on one parameter
    [p] of a group with gradient [g]: the new parameter and the new buffer. *)
Definition step_param (mu wd : Q) (group : ParamGroup) (p g : tensor)
    (buf : option tensor) : result (tensor * tensor) :=
  try r <- zip3_with (step_elem mu wd group) p g (buffer_of p buf) in
  Ok (map fst r, map snd r).

End UpdateEngine.

(** ** Reference statements and concrete inputs *)

(** The two subsets the split of lines 216-222 makes of a set, by the test
    of line 219. *)
Definition bias_subset (named_params : list named_param) : list ref :=
  map snd (List.filter (fun nparam => is_bias_name (fst nparam)) named_params).

Definition nonbias_subset (named_params : list named_param) : list ref :=
  map snd
    (List.filter (fun nparam => negb (is_bias_name (fst nparam))) named_params).

Definition group_of (c : SetConfig) (ps : list ref) (nsc : bool) : ParamGroup :=
  {| params := ps;
     group_lr := set_lr c;
     group_batch_manhattan := use_bm c;
     group_no_sign_change := nsc |}.

(** The groups the loop of lines 215-236 emits for one set. *)
Definition emitted_groups (c : SetConfig) : list ParamGroup :=
  if use_nsc c
  then [ group_of c (bias_subset (set_named_params c)) false;
         group_of c (nonbias_subset (set_named_params c)) true ]
  else [ group_of c (set_params c) false ].

(** The bias subset and the non-bias subset as the specification describes
    them (sections 4.1 and 4.2): a parameter whose name denotes a bias term,
    that is, ends with ["bias"], is in the bias subset; every other
    parameter is in the non-bias subset. *)
Definition spec_bias_subset (named_params : list named_param) : list ref :=
  map snd
    (List.filter (fun nparam => PyStr.endswith (fst nparam) "bias") named_params).

Definition spec_nonbias_subset (named_params : list named_param) : list ref :=
  map snd
    (List.filter (fun nparam => negb (PyStr.endswith (fst nparam) "bias"))
       named_params).

(** The groups section 4.2 of the specification asks for one set: one group
    with all the parameters and the flag off; or, with No-Sign-Change on,
    the bias subset with the flag off and the non-bias subset with the flag
    on; all with the rate and the Batch-Manhattan flag of the set. *)
Definition spec_groups (c : SetConfig) : list ParamGroup :=
  if use_nsc c
  then [ group_of c (spec_bias_subset (set_named_params c)) false;
         group_of c (spec_nonbias_subset (set_named_params c)) true ]
  else [ group_of c (set_params c) false ].

(** How often the parameter object [p] occurs in the groups' member lists. *)
Definition occurrences (p : ref) (groups : list ParamGroup) : nat :=
  list_sum (map (fun g => count_occ Nat.eq_dec (params g) p) groups).

(** The default command line on a small resnet. *)
Definition default_args : Args :=
  {| algo := "sign_symmetry"; last_layer_algo := "None";
     batch_manhattan := false; last_layer_batch_manhattan := false;
     no_sign_change := false; last_layer_no_sign_change := false;
     lr := 1 # 10; llr := 1 # 10; lr_decay := 10;
     save_every_epoch := false; save_every_n_epochs := -1;
     prefix := "."; arch := "resnet18"; epochs := 90; start_epoch := 0;
     resume := ""; evaluate := false; pretrained := false;
     world_size := 1; gpu := None |}.

Definition with_flags (args : Args) (bm lbm nsc lnsc : bool) : Args :=
  {| algo := algo args; last_layer_algo := last_layer_algo args;
     batch_manhattan := bm; last_layer_batch_manhattan := lbm;
     no_sign_change := nsc; last_layer_no_sign_change := lnsc;
     lr := lr args; llr := llr args; lr_decay := lr_decay args;
     save_every_epoch := save_every_epoch args;
     save_every_n_epochs := save_every_n_epochs args;
     prefix := prefix args; arch := arch args; epochs := epochs args;
     start_epoch := start_epoch args; resume := resume args;
     evaluate := evaluate args; pretrained := pretrained args;
     world_size := world_size args; gpu := gpu args |}.

Definition with_model (args : Args) (algo_ arch_ : string) (pretrained_ : bool)
  : Args :=
  {| algo := algo_; last_layer_algo := last_layer_algo args;
     batch_manhattan := batch_manhattan args;
     last_layer_batch_manhattan := last_layer_batch_manhattan args;
     no_sign_change := no_sign_change args;
     last_layer_no_sign_change := last_layer_no_sign_change args;
     lr := lr args; llr := llr args; lr_decay := lr_decay args;
     save_every_epoch := save_every_epoch args;
     save_every_n_epochs := save_every_n_epochs args;
     prefix := prefix args; arch := arch_; epochs := epochs args;
     start_epoch := start_epoch args; resume := resume args;
     evaluate := evaluate args; pretrained := pretrained_;
     world_size := world_size args; gpu := gpu args |}.

Definition with_files (args : Args) (prefix_ resume_ : string) (epochs_ : Z)
  : Args :=
  {| algo := algo args; last_layer_algo := last_layer_algo args;
     batch_manhattan := batch_manhattan args;
     last_layer_batch_manhattan := last_layer_batch_manhattan args;
     no_sign_change := no_sign_change args;
     last_layer_no_sign_change := last_layer_no_sign_change args;
     lr := lr args; llr := llr args; lr_decay := lr_decay args;
     save_every_epoch := save_every_epoch args;
     save_every_n_epochs := save_every_n_epochs args;
     prefix := prefix_; arch := arch args; epochs := epochs_;
     start_epoch := start_epoch args; resume := resume_;
     evaluate := evaluate args; pretrained := pretrained args;
     world_size := world_size args; gpu := gpu args |}.

(** A resnet with one convolution, one batch norm and the classifier [fc],
    wrapped in [DataParallel]. *)
Definition small_resnet : Model :=
  {| named_parameters :=
       [ ("module.conv1.weight", 1%nat); ("module.bn1.weight", 2%nat);
         ("module.bn1.bias", 3%nat); ("module.fc.weight", 4%nat);
         ("module.fc.bias", 5%nat) ];
     fc := Some [ ("weight", 4%nat); ("bias", 5%nat) ];
     classifier_last := None |}.

(** A vgg: its classifier is reached neither as [fc] nor by the script. *)
Definition small_vgg : Model :=
  {| named_parameters :=
       [ ("features.module.0.weight", 1%nat); ("features.module.0.bias", 2%nat);
         ("classifier.6.weight", 3%nat); ("classifier.6.bias", 4%nat) ];
     fc := None;
     classifier_last := Some [ ("weight", 3%nat); ("bias", 4%nat) ] |}.

Definition small_registry : Registry :=
  {| reference_model := fun arch_ _ =>
       if PyStr.startswith arch_ "vgg" then Ok small_vgg
       else if PyStr.startswith arch_ "resnet" then Ok small_resnet
       else Raise (KeyError arch_);
     asymmetric_model := fun arch_ _ _ =>
       if PyStr.startswith arch_ "resnet" then Ok small_resnet
       else Raise (KeyError arch_) |}.

(** A file tree with the working directory [0] and one other directory. *)
Definition two_dirs : Paths :=
  {| cwd := 0%nat;
     dir_of := fun path =>
       if String.eqb path "." || String.eqb path "" then 0%nat else 1%nat;
     walk := fun d path => (d, path) |}.

Definition sample_checkpoint (e : Z) (best : Q) : Checkpoint :=
  {| ck_epoch := e; ck_arch := "resnet18"; ck_state_dict := [];
     ck_best_prec1 := best; ck_optimizer := [] |}.

(** Validation precision grows by ten points per epoch; no epoch fails. *)
Definition sample_training : Training :=
  {| prec1_of := fun e => inject_Z (10 * e);
     state_dict_after := fun _ => [];
     optimizer_after := fun _ => [];
     train_raises := fun _ => None;
     validate_raises := fun _ => None;
     evaluate_raises := None |}.

(** The same under [--print-freq 0]: [train()] stops on [i % 0] in its
    first batch. *)
Definition print_freq_zero_training : Training :=
  {| prec1_of := fun e => inject_Z (10 * e);
     state_dict_after := fun _ => [];
     optimizer_after := fun _ => [];
     train_raises := fun _ => Some ZeroDivisionError;
     validate_raises := fun _ => Some ZeroDivisionError;
     evaluate_raises := Some ZeroDivisionError |}.

(** The state in which a fresh run enters the loop: [best_prec1 = 0], no
    file yet. *)
Definition fresh_state (groups : list ParamGroup) : RunState :=
  {| best_prec1 := 0; param_groups := groups; files := ∅; trained := [] |}.

(** ** Metrics (AverageMeter, accuracy and validate, lines 410-506) *)

Module Metrics.

(** What can stop the metric code: a Python exception, or an error raised
    inside a tensor operation. *)
Inductive failure : Type :=
  | Python (e : exn)
  | TorchRuntimeError (msg : string).

Inductive outcome (A : Type) : Type :=
  | Done (a : A)
  | Failed (f : failure).
Arguments Done {A} a.
Arguments Failed {A} f.

Definition and_next {A B : Type} (r : outcome A) (k : A -> outcome B)
  : outcome B :=
  match r with
  | Done a => k a
  | Failed f => Failed f
  end.

Notation "'get' x <- r 'in' k" := (and_next r (fun x => k))
  (at level 10, x name, r at level 100, k at level 200).

(** The class [AverageMeter]: the current value, the running average, the
    weighted sum and the count. *)
Record AverageMeter : Type := {
  val : Q;
  avg : Q;
  sum : Q;
  count : Z
}.

(** [reset]. *)
Definition reset : AverageMeter :=
  {| val := 0; avg := 0; sum := 0; count := 0 |}.

(** [update(val, n)] on numbers; the division stops on a zero count. *)
Definition update (m : AverageMeter) (v : Q) (n : Z) : outcome AverageMeter :=
  let s := (sum m + v * inject_Z n)%Q in
  let c := count m + n in
  if c =? 0 then Failed (Python ZeroDivisionError)
  else Done {| val := v; avg := (s / inject_Z c)%Q; sum := s; count := c |}.

(** [max(topk)]. *)
Definition max_of (topk : list Z) : outcome Z :=
  match topk with
  | [] => Failed (Python (ValueError "max() arg is an empty sequence"))
  | k :: ks => Done (fold_left Z.max ks k)
  end.

(** [pred.t()] of a tensor given by its rows, each of [cols] entries. *)
Definition transpose (cols : nat) (m : list (list nat)) : list (list nat) :=
  map (fun j => map (fun row => nth j row 0%nat) m) (seq 0 cols).

(** [target.view(1, -1).expand_as(pred)]: the row of targets repeated for
    every row of [pred]; a single target is broadcast over the batch, any
    other difference of sizes is an error. *)
Definition expand_target (target : list nat) (batch : nat)
  : outcome (list nat) :=
  if (length target =? batch)%nat then Done target
  else
    match target with
    | [t] => Done (repeat t batch)
    | _ => Failed (TorchRuntimeError "The expanded size of the tensor must match the existing size")
    end.

(** [pred.eq(...)], elementwise. *)
Definition eq_rows (pred_t : list (list nat)) (expanded : list nat)
  : list (list bool) :=
  map (fun row => map (fun pt => Nat.eqb (fst pt) (snd pt)) (combine row expanded))
    pred_t.

(** The slice [l[:k]]; a negative bound counts from the end. *)
Definition slice_to {A : Type} (k : Z) (l : list A) : list A :=
  if k <? 0 then take (Z.to_nat (Z.of_nat (length l) + k)) l
  else take (Z.to_nat k) l.

(** The memory layout of [correct], the result of [pred.eq(...)] on the
    transposed [pred], which depends on the library: PyTorch before 1.7
    returns a contiguous tensor, PyTorch from 1.7 on a tensor with the
    strides of [pred.t()], whose rows are not adjacent in memory. *)
Inductive layout : Type := Contiguous | Transposed.

(** Can the slice [correct[:k]] be viewed as one dimension?  A contiguous
    tensor always; one with the strides of the transpose only when it has at
    most one row or at most one column. *)
Definition viewable (ly : layout) (rows : list (list bool)) : bool :=
  match ly with
  | Contiguous => true
  | Transposed =>
      (length rows <=? 1)%nat || (length (hd [] rows) <=? 1)%nat
  end.

(** [.float().sum(0)] of the flattened rows: the number of true entries. *)
Definition flat_sum (rows : list (list bool)) : Z :=
  fold_right (fun (b : bool) acc => (if b then 1 else 0) + acc) 0 (concat rows).

(** The loop over [topk] of lines 503-505: [view(-1)] stops with a
    [RuntimeError] on a slice that cannot be viewed, the division on an
    empty batch. *)
Fixpoint precisions (ly : layout) (correct : list (list bool)) (batch_size : Z)
    (topk : list Z) : outcome (list Q) :=
  match topk with
  | [] => Done []
  | k :: ks =>
      let rows := slice_to k correct in
      if negb (viewable ly rows)
      then Failed (TorchRuntimeError "view size is not compatible with input tensor's size and stride")
      else
        let correct_k := flat_sum rows in
        if batch_size =? 0 then Failed (Python ZeroDivisionError)
        else
          get rest <- precisions ly correct batch_size ks in
          Done ((inject_Z correct_k * (100 / inject_Z batch_size))%Q :: rest)
  end.

(** [accuracy(output, target, topk)].  The network's output enters through
    [output.topk(maxk, 1, True, True)], the indices of the [maxk] largest
    scores of each sample, one row per sample. *)
Definition accuracy (ly : layout)
    (output_topk : Z -> outcome (list (list nat)))
    (target : list nat) (topk : list Z) : outcome (list Q) :=
  get maxk <- max_of topk in
  let batch_size := Z.of_nat (length target) in
  get pred <- output_topk maxk in
  let pred_t := transpose (Z.to_nat maxk) pred in
  get expanded <- expand_target target (length pred) in
  let correct := eq_rows pred_t expanded in
  precisions ly correct batch_size topk.

(** A batch of the validation loader with what the model and the criterion
    return on it. *)
Record Batch : Type := {
  output_topk : Z -> outcome (list (list nat));
  target : list nat;
  loss : Q;
  input_size : Z
}.

(** The meters [losses], [top1] and [top5] of [validate]; the meter of the
    wall-clock time is left out. *)
Record Meters : Type := {
  losses : AverageMeter;
  top1 : AverageMeter;
  top5 : AverageMeter
}.

(** Lines 421-447: the body of the loop of [validate] for batch number [i];
    [i % args.print_freq] stops on a zero frequency. *)
Definition validate_batch (ly : layout) (print_freq : Z) (i : Z) (b : Batch)
    (m : Meters) : outcome Meters :=
  get res <- accuracy ly (output_topk b) (target b) [1; 5] in
  match res with
  | [prec1; prec5] =>
      get losses' <- update (losses m) (loss b) (input_size b) in
      get top1' <- update (top1 m) prec1 (input_size b) in
      get top5' <- update (top5 m) prec5 (input_size b) in
      if print_freq =? 0 then Failed (Python ZeroDivisionError)
      else Done {| losses := losses'; top1 := top1'; top5 := top5' |}
  | _ => Failed (Python (ValueError "not enough values to unpack"))
  end.

Fixpoint validate_loop (ly : layout) (print_freq : Z) (i : Z)
    (batches : list Batch) (m : Meters) : outcome Meters :=
  match batches with
  | [] => Done m
  | b :: rest =>
      get m' <- validate_batch ly print_freq i b m in
      validate_loop ly print_freq (i + 1) rest m'
  end.

(** [validate(val_loader, model, criterion)]: the average of the top-1
    meter. *)
Definition validate (ly : layout) (print_freq : Z) (val_loader : list Batch)
  : outcome Q :=
  get m <- validate_loop ly print_freq 0 val_loader
             {| losses := reset; top1 := reset; top5 := reset |} in
  Done (avg (top1 m)).

(** The samples of a batch whose target is among the first [k] predicted
    classes, counted with multiplicity. *)
Definition hits (k : nat) (pred : list (list nat)) (target : list nat) : nat :=
  list_sum
    (map (fun rt => count_occ Nat.eq_dec (take k (fst rt)) (snd rt))
       (combine pred target)).




(** A batch as the loader and a classifier give it, with the indices [pred]
    of its five best classes per sample: the batch is not empty, input,
    target and indices have one row per sample, and each row of indices has
    five entries. *)
Definition well_formed (bp : Batch * list (list nat)) : Prop :=
  target (fst bp) <> [] /\
  input_size (fst bp) = Z.of_nat (length (target (fst bp))) /\
  output_topk (fst bp) 5 = Done (snd bp) /\
  length (snd bp) = length (target (fst bp)) /\
  Forall (fun row => length row = 5%nat) (snd bp).



(** Two samples of a five-class problem: the first is classified wrongly
    (its target is the second choice), the second correctly. *)
Definition sample_pred : list (list nat) :=
  [[2; 0; 1; 3; 4]; [1; 2; 0; 3; 4]]%nat.

Definition sample_batch : Batch :=
  {| output_topk := fun _ => Done sample_pred;
     target := [0; 1]%nat;
     loss := 1 # 2;
     input_size := 2 |}.

(** A batch of one sample, classified correctly. *)
Definition single_pred : list (list nat) := [[3; 0; 1; 2; 4]]%nat.

Definition single_batch : Batch :=
  {| output_topk := fun _ => Done single_pred;
     target := [3]%nat;
     loss := 1 # 4;
     input_size := 1 |}.

(** What a batch feeds the top-1 meter: its top-1 precision and its size. *)
Definition top1_update (bp : Batch * list (list nat)) : Q * Z :=
  ((inject_Z (Z.of_nat (hits 1 (snd bp) (target (fst bp))))
    * (100 / inject_Z (Z.of_nat (length (target (fst bp))))))%Q,
   input_size (fst bp)).

End Metrics.

(** The number a string of decimal digits denotes, leading zeros allowed;
    the inverse of ['%03d'] on epochs that are not negative. *)
Definition digits_value (s : string) : option N :=
  option_map N.of_uint (NilEmpty.uint_of_string s).

(** * Properties *)

(** ** The bias test *)

Section RfindFacts.

Lemma prefix_split (sub s : string) :
  String.prefix sub s = true -> exists rest, s = sub +:+ rest.
Proof.
  revert s; induction sub as [| a sub IH]; intros s H.
  - exists s; reflexivity.
  - destruct s as [| b s]; simpl in H; [discriminate |].
    destruct (Ascii.ascii_dec a b) as [-> | ]; [| discriminate].
    destruct (IH _ H) as [rest ->]. exists rest; reflexivity.
Qed.

Lemma append_length (s t : string) :
  String.length (s +:+ t) = (String.length s + String.length t)%nat.
Proof. induction s as [| c s IH]; simpl; [reflexivity | now f_equal]. Qed.

Lemma length_zero_empty (s : string) : String.length s = 0%nat -> s = "".
Proof. destruct s; [reflexivity | discriminate]. Qed.

(** An index returned by [rfind] is the position of an occurrence. *)
Lemma rfind_index_occurs (sub s : string) (j : nat) :
  PyStr.rfind_index sub s = Some j ->
  exists pre rest, s = pre +:+ sub +:+ rest /\ String.length pre = j.
Proof.
  revert j; induction s as [| c s IH]; intros j H; cbn [PyStr.rfind_index] in H.
  - destruct (String.prefix sub "") eqn:E; [| discriminate].
    injection H as <-. destruct (prefix_split _ _ E) as [rest Hrest].
    exists "", rest. split; [exact Hrest | reflexivity].
  - destruct (PyStr.rfind_index sub s) as [k |] eqn:Ek.
    + injection H as <-. destruct (IH k eq_refl) as (pre & rest & -> & Hl).
      exists (String c pre), rest. split; [reflexivity | simpl; now rewrite Hl].
    + destruct (String.prefix sub (String c s)) eqn:E; [| discriminate].
      injection H as <-. destruct (prefix_split _ _ E) as [rest Hrest].
      exists "", rest. split; [exact Hrest | reflexivity].
Qed.

(** A string shorter than the pattern has no occurrence of it. *)
Lemma rfind_index_short (sub s : string) :
  (String.length s < String.length sub)%nat -> PyStr.rfind_index sub s = None.
Proof.
  intros H. destruct (PyStr.rfind_index sub s) as [j |] eqn:E; [| reflexivity].
  destruct (rfind_index_occurs _ _ _ E) as (pre & rest & -> & _).
  rewrite !append_length in H. lia.
Qed.

(** An occurrence at the very end is the last one. *)
Lemma rfind_index_suffix (pre : string) :
  PyStr.rfind_index "bias" (pre +:+ "bias") = Some (String.length pre).
Proof.
  induction pre as [| c pre IH]; [reflexivity |].
  change (String c pre +:+ "bias") with (String c (pre +:+ "bias")).
  cbn [PyStr.rfind_index]. now rewrite IH.
Qed.

(** What the test of line 219 accepts: the names that end with ["bias"], and
    the names of three characters, for which [rfind] returns [-1] and
    [len - 4] is [-1] too. *)
Lemma is_bias_name_spec (name : string) :
  is_bias_name name = true <->
  PyStr.ends_with name "bias" \/ String.length name = 3%nat.
Proof.
  unfold is_bias_name, PyStr.rfind, PyStr.len. rewrite Z.eqb_eq. split.
  - destruct (PyStr.rfind_index "bias" name) as [j |] eqn:E; intros H.
    + left. destruct (rfind_index_occurs _ _ _ E) as (pre & rest & -> & Hl).
      rewrite !append_length in H. simpl in H.
      assert (rest = "") as -> by (apply length_zero_empty; lia).
      exists pre. reflexivity.
    + right. lia.
  - intros [[pre ->] | H3].
    + rewrite rfind_index_suffix, append_length. simpl. lia.
    + rewrite rfind_index_short by (simpl; lia). lia.
Qed.

(** [endswith] decides "ends with". *)
Lemma endswith_spec (s suf : string) :
  PyStr.endswith s suf = true <-> PyStr.ends_with s suf.
Proof.
  unfold PyStr.ends_with. induction s as [| c s IH].
  - cbn [PyStr.endswith]. rewrite orb_false_r, String.eqb_eq. split.
    + intros <-. now exists "".
    + intros [pre H]. destruct pre; [exact H | discriminate H].
  - cbn [PyStr.endswith]. rewrite orb_true_iff, String.eqb_eq, IH. split.
    + intros [<- | [pre ->]]; [now exists "" | now exists (String c pre)].
    + intros [pre H]. destruct pre as [| c' pre].
      * left. exact H.
      * right. exists pre.
        change (String c' pre +:+ suf) with (String c' (pre +:+ suf)) in H.
        now injection H.
Qed.

(** On a name that does not have three characters the test of line 219 is
    "the name ends with bias". *)
Lemma is_bias_name_endswith (name : string) :
  String.length name <> 3%nat ->
  is_bias_name name = PyStr.endswith name "bias".
Proof.
  intros H3. apply eq_true_iff_eq.
  rewrite is_bias_name_spec, endswith_spec. intuition.
Qed.

End RfindFacts.

(** C5 (the code departs from the claim): the claim routes a parameter to the
    bias subset exactly when its name ends with ["bias"]; the test of line 219
    also accepts the three-character name ["w_a"], which does not end with
    ["bias"], and the split then puts that parameter among the biases. *)
Theorem bias_test_accepts_three_letter_name :
  is_bias_name "w_a" = true /\
  ~ PyStr.ends_with "w_a" "bias" /\
  split_bias [("w_a", 7%nat); ("bias", 8%nat)] = ([7%nat; 8%nat], []).
Proof.
  split; [reflexivity |]. split; [| reflexivity].
  intros [pre H]. apply (f_equal String.length) in H.
  rewrite append_length in H. simpl in H. lia.
Qed.

(** ** The group builder *)

Section GroupBuilder.

Lemma split_bias_acc (named_params : list named_param) (bs ns : list ref) :
  fold_left
    (fun (acc : list ref * list ref) (nparam : named_param) =>
       if is_bias_name (fst nparam)
       then (fst acc ++ [snd nparam], snd acc)
       else (fst acc, snd acc ++ [snd nparam]))
    named_params (bs, ns)
  = (bs ++ bias_subset named_params, ns ++ nonbias_subset named_params).
Proof.
  revert bs ns; induction named_params as [| [name p] l IH]; intros bs ns.
  - cbn. now rewrite !app_nil_r.
  - cbn [fold_left fst snd]. unfold bias_subset, nonbias_subset.
    cbn [List.filter fst]. destruct (is_bias_name name); cbn [negb map snd fst].
    + rewrite IH. unfold bias_subset, nonbias_subset.
      now rewrite <- app_assoc.
    + rewrite IH. unfold bias_subset, nonbias_subset.
      now rewrite <- app_assoc.
Qed.

Lemma split_bias_spec (named_params : list named_param) :
  split_bias named_params
  = (bias_subset named_params, nonbias_subset named_params).
Proof. unfold split_bias. now rewrite split_bias_acc. Qed.

(** One pass of the outer loop appends the groups of the set and, for each of
    them, the set's base rate. *)
Lemma append_groups_spec (c : SetConfig) (st : builder_state) :
  append_groups c st
  = (fst st ++ emitted_groups c, snd st ++ map group_lr (emitted_groups c)).
Proof.
  destruct st as [gs ls]. unfold append_groups, paramss_use_nscs, emitted_groups.
  destruct (use_nsc c).
  - rewrite split_bias_spec. cbn. now rewrite <- !app_assoc.
  - reflexivity.
Qed.

Lemma build_param_groups_spec (args : Args)
    (nonlast_named last_named : list named_param) :
  build_param_groups args nonlast_named last_named
  = (flat_map emitted_groups (set_configs args nonlast_named last_named),
     map group_lr
       (flat_map emitted_groups (set_configs args nonlast_named last_named))).
Proof.
  unfold build_param_groups. cbn [set_configs fold_left flat_map].
  rewrite !append_groups_spec. cbn [fst snd].
  now rewrite !app_nil_r, map_app.
Qed.

Lemma occurrences_app (p : ref) (gs hs : list ParamGroup) :
  occurrences p (gs ++ hs) = (occurrences p gs + occurrences p hs)%nat.
Proof. unfold occurrences. now rewrite map_app, list_sum_app. Qed.

Lemma count_split (p : ref) (named_params : list named_param) :
  (count_occ Nat.eq_dec (bias_subset named_params) p
   + count_occ Nat.eq_dec (nonbias_subset named_params) p)%nat
  = count_occ Nat.eq_dec (map snd named_params) p.
Proof.
  unfold bias_subset, nonbias_subset.
  induction named_params as [| [name q] l IH]; [reflexivity |].
  cbn [List.filter fst]. destruct (is_bias_name name);
    cbn [negb map snd count_occ]; destruct (Nat.eq_dec q p); lia.
Qed.

Lemma occurrences_emitted_groups (p : ref) (c : SetConfig) :
  set_params c = map snd (set_named_params c) ->
  occurrences p (emitted_groups c)
  = count_occ Nat.eq_dec (map snd (set_named_params c)) p.
Proof.
  intros Hp. unfold emitted_groups, occurrences.
  destruct (use_nsc c); cbn [map list_sum fold_right group_of params].
  - rewrite <- count_split. lia.
  - rewrite Hp. lia.
Qed.

Lemma is_any_In (p : ref) (ps : list ref) : is_any p ps = true <-> List.In p ps.
Proof.
  unfold is_any. rewrite existsb_exists. split.
  - intros (q & Hq & E). apply Nat.eqb_eq in E. now subst.
  - intros H. exists p. split; [exact H | apply Nat.eqb_refl].
Qed.

Lemma count_nonlast (p : ref) (all : list named_param) (last : list ref) :
  count_occ Nat.eq_dec
    (map snd (List.filter (fun nparam => negb (is_any (snd nparam) last)) all)) p
  = if is_any p last then 0%nat else count_occ Nat.eq_dec (map snd all) p.
Proof.
  induction all as [| [name q] l IH]; [now destruct (is_any p last) |].
  cbn [List.filter snd map count_occ].
  destruct (Nat.eq_dec q p) as [-> | Hne].
  - destruct (is_any p last) eqn:E; cbn [negb map snd count_occ].
    + exact IH.
    + destruct (Nat.eq_dec p p); [now rewrite IH | congruence].
  - destruct (is_any q last); cbn [negb map snd count_occ]; [exact IH |].
    destruct (Nat.eq_dec q p); [congruence | exact IH].
Qed.

End GroupBuilder.

(** Set-up on the small resnet with No-Sign-Change on both sets: four
    groups, the biases before the constrained weights in each set. *)
Example setup_small_resnet :
  setup small_registry (with_flags default_args false true true true)
  = Ok ([ {| params := [3%nat]; group_lr := 1 # 10;
             group_batch_manhattan := false; group_no_sign_change := false |};
          {| params := [1%nat; 2%nat]; group_lr := 1 # 10;
             group_batch_manhattan := false; group_no_sign_change := true |};
          {| params := [5%nat]; group_lr := 1 # 10;
             group_batch_manhattan := true; group_no_sign_change := false |};
          {| params := [4%nat]; group_lr := 1 # 10;
             group_batch_manhattan := true; group_no_sign_change := true |} ],
        [1 # 10; 1 # 10; 1 # 10; 1 # 10]%Q).
Proof. reflexivity. Qed.

(** The loop and the specification agree on a set none of whose names has
    three characters. *)
Lemma emitted_groups_are_spec_groups (c : SetConfig) :
  Forall (fun nparam : named_param => String.length (fst nparam) <> 3%nat)
    (set_named_params c) ->
  emitted_groups c = spec_groups c.
Proof.
  intros H. unfold emitted_groups, spec_groups.
  destruct (use_nsc c); [| reflexivity].
  assert (bias_subset (set_named_params c) = spec_bias_subset (set_named_params c)
          /\ nonbias_subset (set_named_params c)
             = spec_nonbias_subset (set_named_params c)) as [-> ->];
    [| reflexivity].
  unfold bias_subset, nonbias_subset, spec_bias_subset, spec_nonbias_subset.
  induction H as [| [name p] l Hname _ [IHb IHn]]; [split; reflexivity |].
  cbn [List.filter fst]. cbn [fst] in Hname.
  rewrite (is_bias_name_endswith name Hname).
  destruct (PyStr.endswith name "bias"); cbn [negb map snd];
    split; congruence.
Qed.

(** Outside the three-character names the builder emits, for both sets and
    in their order, the groups the specification asks for. *)
Lemma builder_emits_spec_groups_without_short_names (args : Args)
    (nonlast_named last_named : list named_param) :
  Forall (fun nparam : named_param => String.length (fst nparam) <> 3%nat)
    (nonlast_named ++ last_named) ->
  fst (build_param_groups args nonlast_named last_named)
  = flat_map spec_groups (set_configs args nonlast_named last_named).
Proof.
  intros H. apply Forall_app in H. destruct H as [Hn Hl].
  rewrite build_param_groups_spec. cbn [set_configs flat_map fst].
  now rewrite !emitted_groups_are_spec_groups.
Qed.

(** C3 (the code departs from the claim): with the No-Sign-Change flag of a
    set on, the claim has the builder emit the bias subset with the flag off
    and the non-bias subset with the flag on.  On the set of the weight
    ["w_a"] and the bias ["bias"] the specification's groups are the bias
    alone (flag off) and the weight alone (flag on); the loop, by the test of
    line 219, emits both parameters in the exempt group and an empty
    constrained group. *)
Theorem builder_exempts_three_letter_weight :
  let c :=
    {| use_bm := false; use_nsc := true;
       set_params := [7%nat; 8%nat];
       set_named_params := [("w_a", 7%nat); ("bias", 8%nat)];
       set_lr := 1 # 10; label := "non-last" |} in
  spec_groups c
  = [ {| params := [8%nat]; group_lr := 1 # 10;
         group_batch_manhattan := false; group_no_sign_change := false |};
      {| params := [7%nat]; group_lr := 1 # 10;
         group_batch_manhattan := false; group_no_sign_change := true |} ] /\
  fst (append_groups c ([], []))
  = [ {| params := [7%nat; 8%nat]; group_lr := 1 # 10;
         group_batch_manhattan := false; group_no_sign_change := false |};
      {| params := []; group_lr := 1 # 10;
         group_batch_manhattan := false; group_no_sign_change := true |} ] /\
  fst (append_groups c ([], [])) <> spec_groups c /\
  fst (build_param_groups (with_flags default_args false false true false)
         [("w_a", 7%nat); ("bias", 8%nat)] [])
  <> flat_map spec_groups
       (set_configs (with_flags default_args false false true false)
          [("w_a", 7%nat); ("bias", 8%nat)] []).
Proof.
  cbv zeta. split; [reflexivity |]. split; [reflexivity |].
  split; intros H; apply (f_equal (fun gs => map (fun g => length (params g)) gs)) in H;
    vm_compute in H; discriminate H.
Qed.

(** C4: the emitted list is the groups built from the non-last set followed
    by the groups built from the last set; a set whose No-Sign-Change flag is
    on gives its exempt group (flag off, the biases) before its constrained
    group (flag on, the others); and the recorded base rates are the groups'
    rates position by position. *)
Theorem builder_order_and_rates (args : Args)
    (nonlast_named last_named : list named_param) :
  let built c := fst (append_groups c ([], [])) in
  let groups := fst (build_param_groups args nonlast_named last_named) in
  let lrs := snd (build_param_groups args nonlast_named last_named) in
  exists c_nonlast c_last,
    set_configs args nonlast_named last_named = [c_nonlast; c_last] /\
    groups = built c_nonlast ++ built c_last /\
    map group_no_sign_change (built c_nonlast)
    = (if no_sign_change args then [false; true] else [false]) /\
    map group_no_sign_change (built c_last)
    = (if last_layer_no_sign_change args then [false; true] else [false]) /\
    map params (built c_nonlast)
    = (if no_sign_change args
       then [bias_subset nonlast_named; nonbias_subset nonlast_named]
       else [map snd nonlast_named]) /\
    map params (built c_last)
    = (if last_layer_no_sign_change args
       then [bias_subset last_named; nonbias_subset last_named]
       else [map snd last_named]) /\
    length lrs = length groups /\
    forall (i : nat) (g : ParamGroup),
      groups !! i = Some g -> lrs !! i = Some (group_lr g).
Proof.
  cbv zeta. eexists _, _. split; [reflexivity |].
  rewrite build_param_groups_spec, !append_groups_spec.
  cbn [set_configs flat_map fst snd app]. rewrite app_nil_r.
  unfold emitted_groups; cbn [use_nsc set_named_params set_params].
  repeat split.
  - now destruct (no_sign_change args).
  - now destruct (last_layer_no_sign_change args).
  - now destruct (no_sign_change args).
  - now destruct (last_layer_no_sign_change args).
  - now rewrite length_map.
  - intros i g H. rewrite list_lookup_fmap, H. reflexivity.
Qed.

(** C2: on a model whose enumeration lists each parameter object once, and
    whose last layer does so too, every enumerated parameter object occurs
    exactly once in the member lists of the groups built at start-up. *)
Theorem groups_partition_parameters (args : Args) (model : Model)
    (last_named : list named_param) (p : ref) :
  List.NoDup (map snd (named_parameters model)) ->
  List.NoDup (map snd last_named) ->
  List.In p (map snd (named_parameters model)) ->
  occurrences p (fst (groups_of_model args model last_named)) = 1%nat.
Proof.
  intros Hall Hlast Hin. unfold groups_of_model.
  rewrite build_param_groups_spec. cbn [set_configs flat_map fst].
  rewrite app_nil_r, occurrences_app.
  rewrite !occurrences_emitted_groups by reflexivity.
  cbn [set_named_params]. unfold model_nonlast_named_parameters.
  rewrite count_nonlast.
  destruct (is_any p (map snd last_named)) eqn:E.
  - apply is_any_In in E.
    now rewrite (proj1 (List.NoDup_count_occ' Nat.eq_dec _) Hlast p E).
  - rewrite (proj1 (List.NoDup_count_occ' Nat.eq_dec _) Hall p Hin).
    assert (~ List.In p (map snd last_named)) as Hn.
    { intros H. apply is_any_In in H. congruence. }
    apply (List.count_occ_not_In Nat.eq_dec) in Hn. rewrite Hn. lia.
Qed.

Lemma groups_partition_parameters_witness :
  occurrences 4%nat
    (fst (groups_of_model (with_flags default_args true false true true)
            small_resnet [("weight", 4%nat); ("bias", 5%nat)])) = 1%nat.
Proof.
  apply groups_partition_parameters.
  - cbn. repeat constructor; cbn; intuition lia.
  - cbn. repeat constructor; cbn; intuition lia.
  - cbn. intuition lia.
Defined.

(** ** The schedule *)

Section Schedule.

Lemma pow_tenth_ok (k : Z) :
  power_in_range k -> pow_tenth k = Ok ((1 # 10) ^ k)%Q.
Proof.
  intros [H1 H2]. unfold pow_tenth.
  destruct (k <=? -309) eqn:E1; [lia |].
  destruct (2 ^ 1024 - 2 ^ 970 <=? k) eqn:E2; [lia | reflexivity].
Qed.

Lemma pow_tenth_value (k : Z) (p : Q) :
  pow_tenth k = Ok p -> power_in_range k /\ p = ((1 # 10) ^ k)%Q.
Proof.
  unfold pow_tenth, power_in_range.
  destruct (k <=? -309) eqn:E1; [discriminate |].
  destruct (2 ^ 1024 - 2 ^ 970 <=? k) eqn:E2; [discriminate |].
  cbn [orb]. intros [= <-]. split; [lia | reflexivity].
Qed.

Lemma decayed_lr_ok (lr0 : Q) (epoch D : Z) :
  D <> 0 -> power_in_range (epoch / D) ->
  decayed_lr lr0 epoch D = Ok (lr0 * (1 # 10) ^ (epoch / D))%Q.
Proof.
  intros HD Hk. unfold decayed_lr, floordiv.
  destruct (D =? 0) eqn:E; [apply Z.eqb_eq in E; contradiction |].
  cbn [bind]. now rewrite (pow_tenth_ok _ Hk).
Qed.

Lemma decayed_lr_value (lr0 : Q) (epoch D : Z) (r : Q) :
  decayed_lr lr0 epoch D = Ok r ->
  D <> 0 /\ power_in_range (epoch / D) /\
  r = (lr0 * (1 # 10) ^ (epoch / D))%Q.
Proof.
  unfold decayed_lr, floordiv.
  destruct (D =? 0) eqn:E; [discriminate |]. cbn [bind].
  destruct (pow_tenth (epoch / D)) as [p |] eqn:Ep; [| discriminate].
  cbn [bind]. intros [= <-].
  destruct (pow_tenth_value _ _ Ep) as [Hk ->].
  split; [now apply Z.eqb_neq |]. split; [exact Hk | reflexivity].
Qed.

(** With a non-zero cadence and a power in the range of the floats the
    schedule returns, and keeps the number of groups. *)
Lemma adjust_learning_rate_ok (groups : list ParamGroup) (epoch : Z)
    (lr0s : list Q) (D : Z) :
  D <> 0 -> power_in_range (epoch / D) ->
  exists groups',
    adjust_learning_rate groups epoch lr0s D = Ok groups' /\
    length groups' = length groups.
Proof.
  intros HD Hk. revert lr0s; induction groups as [| g gs IH]; intros lr0s.
  - exists []. split; reflexivity.
  - destruct lr0s as [| lr0 ls].
    + exists (g :: gs). split; reflexivity.
    + destruct (IH ls) as (gs' & E & Hl).
      exists (set_group_lr g (lr0 * (1 # 10) ^ (epoch / D))%Q :: gs').
      cbn [adjust_learning_rate]. rewrite decayed_lr_ok by assumption.
      cbn [bind]. rewrite E. cbn [bind length]. now rewrite Hl.
Qed.

Lemma adjust_learning_rate_lookup (groups groups' : list ParamGroup)
    (epoch : Z) (lr0s : list Q) (D : Z) (i : nat) (g : ParamGroup) (lr0 : Q) :
  adjust_learning_rate groups epoch lr0s D = Ok groups' ->
  groups !! i = Some g -> lr0s !! i = Some lr0 ->
  groups' !! i = Some (set_group_lr g (lr0 * (1 # 10) ^ (epoch / D))%Q).
Proof.
  revert groups' lr0s i.
  induction groups as [| g0 gs IH]; intros groups' lr0s i E Hg Hl;
    [discriminate |].
  destruct lr0s as [| l0 ls]; [discriminate |].
  cbn [adjust_learning_rate] in E.
  destruct (decayed_lr l0 epoch D) as [r |] eqn:Er; cbn [bind] in E;
    [| discriminate].
  destruct (decayed_lr_value _ _ _ _ Er) as (_ & _ & ->).
  destruct (adjust_learning_rate gs epoch ls D) as [gs' |] eqn:E';
    cbn [bind] in E; [| discriminate].
  injection E as <-. destruct i as [| i]; cbn in Hg, Hl |- *.
  - now injection Hg as ->; injection Hl as ->.
  - now apply (IH gs' ls i).
Qed.

Lemma adjust_learning_rate_length (groups groups' : list ParamGroup)
    (epoch : Z) (lr0s : list Q) (D : Z) :
  adjust_learning_rate groups epoch lr0s D = Ok groups' ->
  length groups' = length groups.
Proof.
  revert groups' lr0s; induction groups as [| g gs IH]; intros groups' lr0s E.
  - cbn in E. now injection E as <-.
  - destruct lr0s as [| l0 ls]; [cbn in E; now injection E as <- |].
    cbn [adjust_learning_rate] in E.
    destruct (decayed_lr l0 epoch D) as [r |]; cbn [bind] in E; [| discriminate].
    destruct (adjust_learning_rate gs epoch ls D) as [gs' |] eqn:E';
      cbn [bind] in E; [| discriminate].
    injection E as <-. cbn [length]. now rewrite (IH gs' ls E').
Qed.

(** The schedule fails only on the division or on the power. *)
Lemma adjust_learning_rate_raises (groups : list ParamGroup) (epoch : Z)
    (lr0s : list Q) (D : Z) (e : exn) :
  adjust_learning_rate groups epoch lr0s D = Raise e ->
  (D = 0 /\ e = ZeroDivisionError) \/
  (D <> 0 /\ ~ power_in_range (epoch / D) /\ e = OverflowError).
Proof.
  revert lr0s; induction groups as [| g gs IH]; intros lr0s H; [discriminate |].
  destruct lr0s as [| l0 ls]; [discriminate |].
  cbn [adjust_learning_rate] in H.
  destruct (decayed_lr l0 epoch D) as [r |] eqn:Er; cbn [bind] in H.
  - destruct (adjust_learning_rate gs epoch ls D) as [gs' |] eqn:E';
      cbn [bind] in H; [discriminate |].
    injection H as <-. now apply (IH ls).
  - injection H as <-. unfold decayed_lr, floordiv in Er.
    destruct (D =? 0) eqn:E0; cbn [bind] in Er.
    + left. apply Z.eqb_eq in E0. split; [exact E0 | congruence].
    + right. apply Z.eqb_neq in E0. split; [exact E0 |].
      unfold pow_tenth, power_in_range in *.
      destruct (epoch / D <=? -309) eqn:E1;
        [cbn [orb bind] in Er; split; [lia | congruence] |].
      destruct (2 ^ 1024 - 2 ^ 970 <=? epoch / D) eqn:E2;
        cbn [orb bind] in Er; [split; [lia | congruence] | discriminate].
Qed.

End Schedule.

(** The largest float lies between [10^308] and [10^309]: a power of [0.1]
    is beyond the floats from the exponent [-309] down, where [decayed_lr]
    raises. *)
Example power_range_decades :
  10 ^ 308 < 2 ^ 1024 - 2 ^ 970 < 10 ^ 309 /\
  decayed_lr (1 # 10) 309 (-1) = Raise OverflowError /\
  decayed_lr (1 # 10) 308 (-1) = Ok ((1 # 10) * (1 # 10) ^ (-308))%Q.
Proof. split; [vm_compute; split; reflexivity | split; reflexivity]. Qed.

(** The largest integers that [float()] converts, and the first that it
    does not: the bound of [pow_tenth]. *)
Example float_of_int_range :
  Binary64.float_of_int (2 ^ 1024 - 2 ^ 970) = Raise OverflowError /\
  Binary64.float_of_int (- (2 ^ 1024 - 2 ^ 970)) = Raise OverflowError /\
  Binary64.float_of_int (2 ^ 1024 - 2 ^ 970 - 1)
  = Ok 0x1.fffffffffffffp+1023%float /\
  Binary64.float_of_int (-309) = Ok (-309)%float.
Proof. repeat split; vm_compute; reflexivity. Qed.

Section ScheduleBinary64.

Import Binary64.

Lemma binary64_decayed_lr_ok (libm : Libm) (lr0 : float) (epoch D : Z)
    (p : float) :
  D <> 0 -> tenth_pow libm (epoch / D) = Ok p ->
  Binary64.decayed_lr libm lr0 epoch D = Ok (lr0 * p)%float.
Proof.
  intros HD Hp. unfold Binary64.decayed_lr, floordiv.
  destruct (D =? 0) eqn:E; [apply Z.eqb_eq in E; contradiction |].
  cbn [bind]. now rewrite Hp.
Qed.

Lemma binary64_adjust_ok (libm : Libm) (groups : list Binary64.ParamGroup)
    (epoch : Z) (lr0s : list float) (D : Z) (p : float) :
  D <> 0 -> tenth_pow libm (epoch / D) = Ok p ->
  exists groups',
    Binary64.adjust_learning_rate libm groups epoch lr0s D = Ok groups' /\
    length groups' = length groups /\
    forall (i : nat) (g : Binary64.ParamGroup) (lr0 : float),
      groups !! i = Some g -> lr0s !! i = Some lr0 ->
      groups' !! i = Some (Binary64.set_group_lr g (lr0 * p)%float).
Proof.
  intros HD Hp. revert lr0s; induction groups as [| g gs IH]; intros lr0s.
  - exists []. repeat split. intros i g lr0 H; discriminate H.
  - destruct lr0s as [| l0 ls].
    + exists (g :: gs). repeat split. intros i g' lr0 _ H; discriminate H.
    + destruct (IH ls) as (gs' & E & Hl & Hi).
      exists (Binary64.set_group_lr g (l0 * p)%float :: gs').
      cbn [Binary64.adjust_learning_rate].
      rewrite (binary64_decayed_lr_ok libm l0 epoch D p HD Hp).
      cbn [bind]. rewrite E. cbn [bind length].
      split; [reflexivity |]. split; [now rewrite Hl |].
      intros [| i] g' lr0 Hg Hlr; cbn in Hg, Hlr |- *.
      * now injection Hg as ->; injection Hlr as ->.
      * now apply Hi.
Qed.

(** The exponents 0, 1 and 2: no call of [pow] at 0, and what [pow] returns
    at 1 and 2 when it leaves no error. *)
Lemma tenth_pow_0 (libm : Libm) : tenth_pow libm 0 = Ok 1%float.
Proof. reflexivity. Qed.

Lemma tenth_pow_small (libm : Libm) (k : Z) (y x : float) :
  float_of_int k = Ok y -> (y =? 0)%float = false ->
  is_infinity x = false ->
  pow libm tenth y = (x, ENONE) -> tenth_pow libm k = Ok x.
Proof.
  intros Hk Hy Hx Hpow. unfold tenth_pow. rewrite Hk. cbn [bind].
  rewrite Hy, Hpow. cbn [adjust_erange]. now rewrite Hx.
Qed.

End ScheduleBinary64.

(** C6, as stated, fails: the rates are binary64 numbers, and the product
    [0.1 * 0.1 ** 1] that the schedule writes at epoch 10 for the base rate
    [0.1] and the cadence 10 is not the float [0.01] but the next float
    above it ([0.010000000000000002]): on the sample library, and on every C
    library whose [pow] returns its first argument at the exponent 1.  Nor
    is a rate written for every epoch and cadence: with the cadence [-1] the
    power [0.1 ** -309] at epoch 309 is beyond the floats, and the schedule
    stops with [OverflowError]; with the cadence 0 it stops on the
    division. *)
Lemma schedule_misses_one_hundredth :
  (Binary64.adjust_learning_rate Binary64.sample_libm [Binary64.sample_group]
     10 [Binary64.tenth] 10
   = Ok [Binary64.set_group_lr Binary64.sample_group
           (Binary64.tenth * Binary64.tenth)%float] /\
   (Binary64.tenth * Binary64.tenth =? Binary64.hundredth)%float = false /\
   (Binary64.tenth * Binary64.tenth)%float = next_up Binary64.hundredth) /\
  (forall (libm : Binary64.Libm) (g : Binary64.ParamGroup),
      Binary64.pow libm Binary64.tenth 1 = (Binary64.tenth, Binary64.ENONE) ->
      exists g',
        Binary64.adjust_learning_rate libm [g] 10 [Binary64.tenth] 10 = Ok [g'] /\
        (Binary64.lr g' =? Binary64.hundredth)%float = false) /\
  (forall (libm : Binary64.Libm) (g : Binary64.ParamGroup) (e : Binary64.errno),
      Binary64.pow libm Binary64.tenth (-309) = (infinity, e) ->
      e <> Binary64.EOTHER ->
      Binary64.adjust_learning_rate libm [g] 309 [Binary64.tenth] (-1)
      = Raise OverflowError) /\
  (forall (libm : Binary64.Libm) (g : Binary64.ParamGroup) (epoch : Z),
      Binary64.adjust_learning_rate libm [g] epoch [Binary64.tenth] 0
      = Raise ZeroDivisionError).
Proof.
  split; [repeat split | split; [| split]].
  - intros libm g Hpow. eexists. split.
    + cbn [Binary64.adjust_learning_rate].
      rewrite (binary64_decayed_lr_ok libm Binary64.tenth 10 10 Binary64.tenth);
        [reflexivity | discriminate |].
      now apply (tenth_pow_small libm (10 / 10) 1%float Binary64.tenth).
    + reflexivity.
  - intros libm g e Hpow He.
    cbn [Binary64.adjust_learning_rate]. unfold Binary64.decayed_lr, floordiv.
    change (-1 =? 0) with false. cbn [bind].
    unfold Binary64.tenth_pow.
    change (Binary64.float_of_int (309 / -1)) with (@Ok float (-309)%float).
    cbn [bind]. change ((-309 =? 0)%float) with false.
    rewrite Hpow. destruct e; [reflexivity | reflexivity | congruence].
  - intros libm g epoch. reflexivity.
Qed.

(** C6, amended: for every epoch index and every group that has a recorded
    base rate, the schedule with a non-zero cadence [D], when the power
    [0.1 ** floor(epoch / D)] is a float [p], writes the binary64 product
    [base_lr * p] into the group's rate and changes nothing else of the
    group; when the power raises, the schedule raises the same error.  With
    [base_lr = 0.1] and [D = 10] the rate is exactly [0.1] at epochs 0 and
    9; at epoch 10 it is [0.1 * 0.1], the float next above [0.01]; and at
    epoch 25 it is [0.1 * 0.1 ** 2], the float next above [0.001] when
    [pow] rounds the square correctly. *)
Theorem schedule_decays_in_binary64 :
  (forall (libm : Binary64.Libm) (groups : list Binary64.ParamGroup)
      (epoch : Z) (lr0s : list float) (D : Z) (p : float),
      D <> 0 ->
      Binary64.tenth_pow libm (epoch / D) = Ok p ->
      exists groups',
        Binary64.adjust_learning_rate libm groups epoch lr0s D = Ok groups' /\
        length groups' = length groups /\
        forall (i : nat) (g : Binary64.ParamGroup) (lr0 : float),
          groups !! i = Some g -> lr0s !! i = Some lr0 ->
          exists g',
            groups' !! i = Some g' /\
            Binary64.lr g' = (lr0 * p)%float /\
            Binary64.params g' = Binary64.params g /\
            Binary64.batch_manhattan g' = Binary64.batch_manhattan g /\
            Binary64.no_sign_change g' = Binary64.no_sign_change g) /\
  (forall (libm : Binary64.Libm) (g : Binary64.ParamGroup)
      (groups : list Binary64.ParamGroup) (epoch : Z) (lr0 : float)
      (lr0s : list float) (D : Z) (e : exn),
      D <> 0 ->
      Binary64.tenth_pow libm (epoch / D) = Raise e ->
      Binary64.adjust_learning_rate libm (g :: groups) epoch (lr0 :: lr0s) D
      = Raise e) /\
  (forall (libm : Binary64.Libm) (g : Binary64.ParamGroup),
      Binary64.adjust_learning_rate libm [g] 0 [Binary64.tenth] 10
      = Ok [Binary64.set_group_lr g Binary64.tenth] /\
      Binary64.adjust_learning_rate libm [g] 9 [Binary64.tenth] 10
      = Ok [Binary64.set_group_lr g Binary64.tenth] /\
      (Binary64.pow libm Binary64.tenth 1 = (Binary64.tenth, Binary64.ENONE) ->
       Binary64.adjust_learning_rate libm [g] 10 [Binary64.tenth] 10
       = Ok [Binary64.set_group_lr g (next_up Binary64.hundredth)]) /\
      (Binary64.pow libm Binary64.tenth 2
       = (next_up Binary64.hundredth, Binary64.ENONE) ->
       Binary64.adjust_learning_rate libm [g] 25 [Binary64.tenth] 10
       = Ok [Binary64.set_group_lr g (next_up Binary64.thousandth)])).
Proof.
  split; [| split].
  - intros libm groups epoch lr0s D p HD Hp.
    destruct (binary64_adjust_ok libm groups epoch lr0s D p HD Hp)
      as (gs' & E & Hl & Hi).
    exists gs'. split; [exact E |]. split; [exact Hl |].
    intros i g lr0 Hg Hlr. eexists. split; [exact (Hi i g lr0 Hg Hlr) |].
    repeat split.
  - intros libm g groups epoch lr0 lr0s D e HD Hp.
    cbn [Binary64.adjust_learning_rate]. unfold Binary64.decayed_lr, floordiv.
    destruct (D =? 0) eqn:E; [apply Z.eqb_eq in E; contradiction |].
    cbn [bind]. now rewrite Hp.
  - intros libm g. split; [reflexivity |]. split; [reflexivity |]. split.
    + intros Hpow. cbn [Binary64.adjust_learning_rate].
      rewrite (binary64_decayed_lr_ok libm Binary64.tenth 10 10 Binary64.tenth);
        [reflexivity | discriminate |].
      now apply (tenth_pow_small libm (10 / 10) 1%float Binary64.tenth).
    + intros Hpow. cbn [Binary64.adjust_learning_rate].
      rewrite (binary64_decayed_lr_ok libm Binary64.tenth 25 10
                 (next_up Binary64.hundredth));
        [reflexivity | discriminate |].
      now apply (tenth_pow_small libm (25 / 10) 2%float
                   (next_up Binary64.hundredth)).
Qed.

Lemma schedule_decays_in_binary64_witness :
  exists groups',
    Binary64.adjust_learning_rate Binary64.sample_libm
      [Binary64.sample_group; Binary64.sample_group] 25
      [Binary64.tenth; Binary64.tenth] 10 = Ok groups' /\
    length groups' = 2%nat.
Proof.
  destruct (proj1 schedule_decays_in_binary64 Binary64.sample_libm
              [Binary64.sample_group; Binary64.sample_group] 25
              [Binary64.tenth; Binary64.tenth] 10
              (next_up Binary64.hundredth) ltac:(lia) eq_refl)
    as (gs' & E & Hl & _).
  exists gs'. split; [exact E | exact Hl].
Defined.

(** The rates of the four epochs on the sample library, evaluated. *)
Example schedule_binary64_values :
  map (fun epoch =>
         Binary64.adjust_learning_rate Binary64.sample_libm
           [Binary64.sample_group] epoch [Binary64.tenth] 10)
    [0; 9; 10; 25]
  = map (fun rate => Ok [Binary64.set_group_lr Binary64.sample_group rate])
      [Binary64.tenth; Binary64.tenth; next_up Binary64.hundredth;
       next_up Binary64.thousandth].
Proof. reflexivity. Qed.

(** ** Set-up checks *)

(** C7 (the code departs from the claim): the claim has set-up fail with a
    configuration error on every architecture outside the two families.
    With the reference models ([--algo None]) the architecture is not
    checked when the model is created; on a vgg, which the reference
    registry has, set-up stops at line 192 on the unbound variable
    [model_last_named_parameters], which is no configuration error.  The
    same architecture under another algorithm meets the assertion of line
    150. *)
Theorem unsupported_arch_not_rejected_for_reference_models :
  setup small_registry (with_model default_args "None" "vgg16" false)
  = Raise (UnboundLocalError "model_last_named_parameters") /\
  is_ConfigurationError (UnboundLocalError "model_last_named_parameters")
  = false /\
  ~ (exists e,
        setup small_registry (with_model default_args "None" "vgg16" false)
        = Raise e /\ is_ConfigurationError e = true) /\
  setup small_registry (with_model default_args "sign_symmetry" "vgg16" false)
  = Raise (AssertionError "only resnets or alexnet supported").
Proof.
  split; [reflexivity |]. split; [reflexivity |]. split; [| reflexivity].
  intros (e & H & He). cbv in H. injection H as <-. discriminate He.
Qed.

(** The path that does check: for every configuration with an algorithm
    other than ['None'] whose architecture identifier starts neither with
    [resnet] nor with [alexnet], set-up fails with the assertion error of
    line 150, a configuration error, before any parameter group is built. *)
Lemma unsupported_arch_rejected (reg : Registry) (args : Args) :
  algo args <> "None" ->
  PyStr.startswith (arch args) "resnet" = false ->
  PyStr.startswith (arch args) "alexnet" = false ->
  setup reg args = Raise (AssertionError "only resnets or alexnet supported") /\
  is_ConfigurationError (AssertionError "only resnets or alexnet supported")
  = true.
Proof.
  intros Halgo Hr Ha. split; [| reflexivity].
  unfold setup, create_model. apply String.eqb_neq in Halgo.
  now rewrite Halgo, Hr, Ha.
Qed.

Lemma unsupported_arch_rejected_witness :
  setup small_registry (with_model default_args "sign_symmetry" "vgg16" false)
  = Raise (AssertionError "only resnets or alexnet supported") /\
  is_ConfigurationError (AssertionError "only resnets or alexnet supported")
  = true.
Proof.
  apply unsupported_arch_rejected; [discriminate | reflexivity | reflexivity].
Defined.

(** X3: whatever the algorithm, set-up builds no parameter group for an
    architecture outside the two families: where the assertion is skipped,
    the model's constructor fails or line 192 reads the unbound local. *)
Lemma unsupported_arch_builds_no_group (reg : Registry) (args : Args) :
  PyStr.startswith (arch args) "resnet" = false ->
  PyStr.startswith (arch args) "alexnet" = false ->
  exists e, setup reg args = Raise e.
Proof.
  intros Hr Ha. unfold setup.
  destruct (create_model reg args) as [model | e]; cbn [bind];
    [| now exists e].
  unfold model_last_named_parameters. rewrite Hr, Ha.
  destruct (gpu args); eexists; reflexivity.
Qed.

(** C8: every configuration that asks for pretrained weights with an
    algorithm other than ['None'] fails in set-up with a configuration
    error, and a model is created with pretrained weights only under the
    algorithm ['None']. *)
Theorem pretrained_only_with_default_algo (reg : Registry) (args : Args) :
  pretrained args = true ->
  (algo args <> "None" ->
   exists e, setup reg args = Raise e /\ is_ConfigurationError e = true) /\
  (forall model, create_model reg args = Ok model -> algo args = "None").
Proof.
  intros Hp. split.
  - intros Halgo. unfold setup, create_model. apply String.eqb_neq in Halgo.
    rewrite Halgo, Hp.
    destruct (negb _); eexists; (split; [reflexivity | reflexivity]).
  - intros model H. unfold create_model in H.
    destruct (String.eqb (algo args) "None") eqn:E.
    + now apply String.eqb_eq in E.
    + rewrite Hp in H. destruct (negb _) in H; discriminate.
Qed.

Lemma pretrained_only_with_default_algo_witness :
  exists e,
    setup small_registry (with_model default_args "sign_symmetry" "resnet18" true)
    = Raise e /\ is_ConfigurationError e = true.
Proof.
  apply (pretrained_only_with_default_algo small_registry
           (with_model default_args "sign_symmetry" "resnet18" true) eq_refl).
  discriminate.
Defined.

(** ** Checkpoint files *)

Section CheckpointFiles.

Lemma has_sep_append (s t : string) :
  has_sep (s +:+ t) = has_sep s || has_sep t.
Proof.
  induction s as [| c s IH]; [reflexivity |].
  change (String c s +:+ t) with (String c (s +:+ t)).
  cbn [has_sep]. now rewrite IH, orb_assoc.
Qed.

Lemma has_sep_digits (u : Decimal.uint) :
  has_sep (NilEmpty.string_of_uint u) = false.
Proof. induction u; cbn; auto. Qed.

Lemma has_sep_decimal (n : Z) : has_sep (decimal n) = false.
Proof.
  unfold decimal, NilZero.string_of_uint.
  destruct (N.to_uint (Z.to_N n)) eqn:E; try reflexivity;
    rewrite <- E; apply has_sep_digits.
Qed.

Lemma has_sep_zeros (k : nat) : has_sep (zeros k) = false.
Proof. induction k; cbn; auto. Qed.

Lemma has_sep_format_03d (n : Z) : has_sep (format_03d n) = false.
Proof.
  unfold format_03d, zfill. destruct (n <? 0);
    rewrite ?has_sep_append, has_sep_zeros, has_sep_decimal; reflexivity.
Qed.

Lemma has_sep_epoch_name (n : Z) :
  has_sep ("epoch" +:+ format_03d n +:+ ".pth.tar") = false.
Proof. now rewrite !has_sep_append, has_sep_format_03d. Qed.

Lemma file_at_plain (px : Paths) (d : dir) (name : string) :
  has_sep name = false -> file_at px d name = (d, name).
Proof. unfold file_at. now intros ->. Qed.

End CheckpointFiles.

Lemma epoch_name_fresh (x : string) :
  "epoch" +:+ x <> "checkpoint.pth.tar" /\ "epoch" +:+ x <> "model_best.pth.tar".
Proof.
  change ("epoch" +:+ x) with (String "e" ("poch" +:+ x)).
  split; intros H; injection H as H _; discriminate H.
Qed.

Example format_03d_values :
  format_03d 7 = "007" /\ format_03d 42 = "042" /\ format_03d 123 = "123" /\
  format_03d 1234 = "1234" /\ format_03d (-1) = "-01".
Proof. vm_compute. repeat split. Qed.

Ltac fs_crush :=
  repeat first
    [ progress cbn [fst snd orb]
    | progress simplify_map_eq
    | rewrite lookup_insert_ne by congruence
    | case_decide
    | split
    | intro ];
  try done.

(** [save_checkpoint] on the default file name, by the place of the prefix
    directory and the content of the working directory. *)
Lemma save_checkpoint_cases (px : Paths) (args : Args) (state : Checkpoint)
    (is_best : bool) (epoch : Z) (fs : FS) :
  let filename := "checkpoint.pth.tar" in
  let written := joined px (prefix args) filename in
  let source := bare px filename in
  let best := joined px (prefix args) "model_best.pth.tar" in
  let snap :=
    joined px (prefix args) ("epoch" +:+ format_03d epoch +:+ ".pth.tar") in
  let out := save_checkpoint px args state is_best epoch filename fs in
  fst out !! written = Some state /\
  (dir_of px (prefix args) = cwd px ->
   snd out = Ok tt /\
   (is_best = true -> fst out !! best = Some state) /\
   (snapshot_due args epoch = true -> fst out !! snap = Some state)) /\
  (dir_of px (prefix args) <> cwd px -> fs !! source = None ->
   is_best || snapshot_due args epoch = true ->
   snd out = Raise (FileNotFoundError filename)) /\
  (dir_of px (prefix args) <> cwd px ->
   forall old, fs !! source = Some old ->
   snd out = Ok tt /\
   (is_best = true -> fst out !! best = Some old) /\
   (snapshot_due args epoch = true -> fst out !! snap = Some old)).
Proof.
  cbv zeta.
  unfold save_checkpoint, joined, bare.
  rewrite (file_at_plain px _ "checkpoint.pth.tar") by reflexivity.
  rewrite (file_at_plain px _ "checkpoint.pth.tar") by reflexivity.
  rewrite (file_at_plain px _ "model_best.pth.tar") by reflexivity.
  rewrite (file_at_plain px _ _ (has_sep_epoch_name epoch)).
  destruct (epoch_name_fresh (format_03d epoch +:+ ".pth.tar")) as [Hn1 Hn2].
  generalize dependent ("epoch" +:+ format_03d epoch +:+ ".pth.tar").
  intros ename Hn1 Hn2.
  generalize (dir_of px (prefix args)) (cwd px) (snapshot_due args epoch).
  intros pd wd due.
  unfold and_then, when, torch_save, copyfile.
  destruct (decide (pd = wd)) as [-> | Hd].
  - split; [| split; [intros _ | split; intros ?; congruence]].
    + destruct is_best, due; fs_crush.
    + destruct is_best, due; fs_crush.
  - split; [| split; [intros ?; congruence | split]].
    + destruct is_best, due; cbn [fst snd];
        destruct (fs !! (wd, "checkpoint.pth.tar")) eqn:E; fs_crush.
    + intros _ E. destruct is_best, due; fs_crush.
    + intros _ old E. destruct is_best, due; fs_crush.
Qed.

(** C9, amended: [save_checkpoint] writes the checkpoint to
    [prefix/filename] and makes its copies from the bare relative path
    [filename].  When the prefix directory is the working directory the
    copies succeed and hold the checkpoint just written.  When it is not,
    a due copy fails with [FileNotFoundError] if the working directory has
    no file of that name; if it has one, the copies succeed and hold that
    other file, not the checkpoint just written. *)
Theorem save_checkpoint_copies_bare_path (px : Paths) (args : Args) (state : Checkpoint)
    (is_best : bool) (epoch : Z) (fs : FS) :
  let filename := "checkpoint.pth.tar" in
  let written := joined px (prefix args) filename in
  let source := bare px filename in
  let best := joined px (prefix args) "model_best.pth.tar" in
  let snap :=
    joined px (prefix args) ("epoch" +:+ format_03d epoch +:+ ".pth.tar") in
  let out := save_checkpoint px args state is_best epoch filename fs in
  fst out !! written = Some state /\
  (dir_of px (prefix args) = cwd px ->
   snd out = Ok tt /\
   (is_best = true -> fst out !! best = Some state) /\
   (snapshot_due args epoch = true -> fst out !! snap = Some state)) /\
  (dir_of px (prefix args) <> cwd px -> fs !! source = None ->
   is_best || snapshot_due args epoch = true ->
   snd out = Raise (FileNotFoundError filename)) /\
  (dir_of px (prefix args) <> cwd px ->
   forall old, fs !! source = Some old ->
   snd out = Ok tt /\
   (is_best = true -> fst out !! best = Some old) /\
   (snapshot_due args epoch = true -> fst out !! snap = Some old)).
Proof. exact (save_checkpoint_cases px args state is_best epoch fs). Qed.


Lemma save_checkpoint_copies_bare_path_witness :
  snd (save_checkpoint two_dirs (with_files default_args "out" "" 90)
         (sample_checkpoint 1 (1 # 2)) true 0 "checkpoint.pth.tar" ∅)
  = Raise (FileNotFoundError "checkpoint.pth.tar").
Proof.
  apply (proj1 (proj2 (proj2 (save_checkpoint_copies_bare_path two_dirs
           (with_files default_args "out" "" 90)
           (sample_checkpoint 1 (1 # 2)) true 0 ∅)))).
  - discriminate.
  - reflexivity.
  - reflexivity.
Defined.

(** C9, as stated, fails: the copies do not fail whenever the prefix
    directory differs from the working directory.  With the prefix [out] and
    a checkpoint of an earlier run left in the working directory, both calls
    of [copyfile] succeed, and [out/model_best.pth.tar] holds the old file
    (epoch 3), not the checkpoint just written (epoch 8). *)
Lemma stale_checkpoint_is_copied :
  let args := with_files default_args "out" "" 90 in
  let stale := sample_checkpoint 3 (1 # 4) in
  let state := sample_checkpoint 8 (1 # 2) in
  let fs : FS := {[ (0%nat, "checkpoint.pth.tar") := stale ]} in
  let out := save_checkpoint two_dirs args state true 7 "checkpoint.pth.tar" fs in
  dir_of two_dirs (prefix args) <> cwd two_dirs /\
  snd out = Ok tt /\
  fst out !! joined two_dirs (prefix args) "checkpoint.pth.tar" = Some state /\
  fst out !! joined two_dirs (prefix args) "model_best.pth.tar" = Some stale.
Proof.
  cbv zeta. split; [discriminate |].
  split; [reflexivity |]. split; reflexivity.
Qed.

(** ** The update step *)

Section UpdateStep.

Import UpdateEngine.

Lemma zip3_with_total {A : Type} (f : Q -> Q -> Q -> A) (p g v : tensor) :
  length g = length p -> length v = length p ->
  exists r, zip3_with f p g v = Ok r /\ length r = length p.
Proof.
  revert g v; induction p as [| x p IH]; intros [| y g] [| z v] Hg Hv;
    try discriminate.
  - exists []. split; reflexivity.
  - injection Hg as Hg. injection Hv as Hv.
    destruct (IH g v Hg Hv) as (r & E & Hl).
    exists (f x y z :: r). cbn [zip3_with]. rewrite E. cbn [bind length].
    split; [reflexivity | now rewrite Hl].
Qed.

Lemma zip3_with_lookup {A : Type} (f : Q -> Q -> Q -> A) (p g v : tensor)
    (r : list A) (i : nat) (x : Q) :
  zip3_with f p g v = Ok r -> p !! i = Some x ->
  exists y z, g !! i = Some y /\ v !! i = Some z /\ r !! i = Some (f x y z).
Proof.
  revert g v r i; induction p as [| x0 p IH]; intros g v r i E Hp;
    [discriminate |].
  destruct g as [| y0 g], v as [| z0 v]; try discriminate.
  cbn [zip3_with] in E.
  destruct (zip3_with f p g v) as [r' |] eqn:E'; cbn [bind] in E;
    [| discriminate].
  injection E as <-. destruct i as [| i]; cbn in Hp |- *.
  - injection Hp as ->. now exists y0, z0.
  - now apply (IH g v r' i).
Qed.

Lemma map_lookup {A B : Type} (f : A -> B) (l : list A) (i : nat) (x : A) :
  l !! i = Some x -> map f l !! i = Some (f x).
Proof.
  revert i; induction l as [| a l IH]; intros [| i] H; try discriminate.
  - now injection H as ->.
  - now apply IH.
Qed.

(** The overlay on one element: the applied step is the policy's step unless
    the sign would flip, and then it is the element itself. *)
Lemma overlay_keeps_sign (p d : Q) :
  let applied := overlay true p d in
  (sgn (p - applied) = sgn p \/ (p - applied == 0)%Q) /\
  (sgn (p - d) <> sgn p -> applied = p /\ (p - applied == 0)%Q) /\
  (sgn (p - d) = sgn p -> applied = d).
Proof.
  cbv zeta. unfold overlay, sign_flips. cbn [andb].
  destruct (sgn (p - d) =? sgn p) eqn:E; cbn [negb].
  - apply Z.eqb_eq in E. split; [now left |]. split; [congruence | reflexivity].
  - apply Z.eqb_neq in E. assert (p - p == 0)%Q as H0 by apply Qplus_opp_r.
    split; [now right |]. split; [now split | congruence].
Qed.

End UpdateStep.

(** C1: in a group with the No-Sign-Change flag, one update step of a
    parameter (shapes matching) returns, and for every element either the
    sign after the step is the sign before it or the element is zero after
    the step; where the step chosen by the policy would give a different
    sign, the applied step is the element itself and the element lands
    exactly at zero. *)
Theorem no_sign_change_keeps_sign (mu wd : Q) (group : ParamGroup)
    (p g : UpdateEngine.tensor) (buf : option UpdateEngine.tensor) :
  group_no_sign_change group = true ->
  length g = length p ->
  length (UpdateEngine.buffer_of p buf) = length p ->
  exists p' v',
    UpdateEngine.step_param mu wd group p g buf = Ok (p', v') /\
    length p' = length p /\
    forall (i : nat) (p_before : Q),
      p !! i = Some p_before ->
      exists p_after g_i v_i,
        p' !! i = Some p_after /\
        g !! i = Some g_i /\
        UpdateEngine.buffer_of p buf !! i = Some v_i /\
        (UpdateEngine.sgn p_after = UpdateEngine.sgn p_before \/
         (p_after == 0)%Q) /\
        let velocity :=
          UpdateEngine.momentum mu v_i
            (UpdateEngine.weight_decay wd g_i p_before) in
        let unclamped :=
          UpdateEngine.policy_delta (group_batch_manhattan group)
            (group_lr group) velocity in
        let delta := UpdateEngine.delta_elem group p_before velocity in
        p_after = (p_before - delta)%Q /\
        (UpdateEngine.sgn (p_before - unclamped)
         <> UpdateEngine.sgn p_before ->
         delta = p_before /\ (p_after == 0)%Q) /\
        (UpdateEngine.sgn (p_before - unclamped)
         = UpdateEngine.sgn p_before ->
         delta = unclamped).
Proof.
  intros Hnsc Hg Hv. unfold UpdateEngine.step_param.
  destruct (zip3_with_total (UpdateEngine.step_elem mu wd group) p g
              (UpdateEngine.buffer_of p buf) Hg Hv) as (r & E & Hl).
  rewrite E. cbn [bind]. eexists _, _. split; [reflexivity |].
  split; [now rewrite length_map |].
  intros i pb Hp.
  destruct (zip3_with_lookup _ _ _ _ _ _ _ E Hp) as (gi & vi & Hgi & Hvi & Hr).
  eexists _, gi, vi.
  split; [exact (map_lookup fst r i _ Hr) |]. split; [exact Hgi |]. split; [exact Hvi |].
  unfold UpdateEngine.step_elem, UpdateEngine.delta_elem. cbn [fst].
  rewrite Hnsc.
  destruct (overlay_keeps_sign pb
              (UpdateEngine.policy_delta (group_batch_manhattan group)
                 (group_lr group)
                 (UpdateEngine.momentum mu vi
                    (UpdateEngine.weight_decay wd gi pb)))) as (H1 & H2 & H3).
  split; [exact H1 |]. split; [reflexivity |]. split; [exact H2 | exact H3].
Qed.

Lemma no_sign_change_keeps_sign_witness :
  exists p' v',
    UpdateEngine.step_param (9 # 10) 0
      {| params := [1%nat]; group_lr := 1 # 10;
         group_batch_manhattan := true; group_no_sign_change := true |}
      [1 # 20; - (1 # 2); 0]%Q [3; 3; - (1)]%Q None = Ok (p', v') /\
    length p' = 3%nat.
Proof.
  destruct (no_sign_change_keeps_sign (9 # 10) 0
              {| params := [1%nat]; group_lr := 1 # 10;
                 group_batch_manhattan := true; group_no_sign_change := true |}
              [1 # 20; - (1 # 2); 0]%Q [3; 3; - (1)]%Q None
              eq_refl eq_refl eq_refl) as (p' & v' & E & Hl & _).
  exists p', v'. split; [exact E | exact Hl].
Defined.

(** The three elements of the input above: the first would cross zero and is
    clamped to zero, the second keeps its sign, the third starts at zero and
    stays there. *)
Example no_sign_change_step_values :
  UpdateEngine.step_param (9 # 10) 0
    {| params := [1%nat]; group_lr := 1 # 10;
       group_batch_manhattan := true; group_no_sign_change := true |}
    [1 # 20; - (1 # 2); 0]%Q [3; 3; - (1)]%Q None
  = Ok ([(1 # 20) - (1 # 20); - (1 # 2) - (1 # 10) * 1; 0 - 0]%Q,
        [(9 # 10) * 0 + 3; (9 # 10) * 0 + 3; (9 # 10) * 0 + - (1)]%Q).
Proof. reflexivity. Qed.

(** ** The epoch loop and resuming *)

Section EpochLoop.

Lemma py_max_cases (a b : Q) :
  (a <= py_max a b)%Q /\ (b <= py_max a b)%Q /\
  (py_max a b = a \/ py_max a b = b).
Proof.
  unfold py_max, gt. destruct (Qle_bool b a) eqn:E; cbn [negb].
  - apply Qle_bool_iff in E. split; [apply Qle_refl |]. split; [exact E | now left].
  - assert (~ (b <= a)%Q) as H by (rewrite <- Qle_bool_iff; congruence).
    apply Qnot_le_lt, Qlt_le_weak in H.
    split; [exact H |]. split; [apply Qle_refl | now right].
Qed.

Lemma py_range_nil (a b : Z) : b <= a -> py_range a b = [].
Proof.
  intros H. unfold py_range. now replace (Z.to_nat (b - a)) with 0%nat by lia.
Qed.

Lemma py_range_cons (a b : Z) : a < b -> py_range a b = a :: py_range (a + 1) b.
Proof.
  intros H. unfold py_range.
  replace (Z.to_nat (b - a)) with (S (Z.to_nat (b - (a + 1)))) by lia.
  cbn [seq map]. f_equal; [lia |].
  rewrite <- seq_shift, List.map_map. apply List.map_ext. intros i. lia.
Qed.

Lemma py_range_snoc (a : Z) (n : nat) :
  py_range a (a + Z.of_nat (S n))
  = py_range a (a + Z.of_nat n) ++ [a + Z.of_nat n].
Proof.
  unfold py_range.
  replace (Z.to_nat (a + Z.of_nat (S n) - a)) with (S n) by lia.
  replace (Z.to_nat (a + Z.of_nat n - a)) with n by lia.
  now rewrite seq_S, map_app.
Qed.

Lemma py_range_split (a b : Z) (n : nat) :
  a + Z.of_nat n <= b ->
  py_range a (a + Z.of_nat n) ++ py_range (a + Z.of_nat n) b = py_range a b.
Proof.
  revert a; induction n as [| n IH]; intros a H.
  - rewrite py_range_nil by lia. cbn [app]. f_equal. lia.
  - rewrite (py_range_cons a (a + Z.of_nat (S n))) by lia.
    rewrite (py_range_cons a b) by lia. cbn [app]. f_equal.
    replace (a + Z.of_nat (S n)) with (a + 1 + Z.of_nat n) by lia.
    apply IH. lia.
Qed.

Lemma py_range_length (a : Z) (n : nat) :
  length (py_range a (a + Z.of_nat n)) = n.
Proof.
  unfold py_range. rewrite length_map, length_seq. lia.
Qed.

(** In the working directory every file is, after [save_checkpoint], what it
    was before or the checkpoint just written. *)
Lemma save_checkpoint_in_cwd (px : Paths) (args : Args) (state : Checkpoint)
    (is_best : bool) (epoch : Z) (fs : FS) (l : loc) :
  dir_of px (prefix args) = cwd px ->
  let out := save_checkpoint px args state is_best epoch "checkpoint.pth.tar" fs in
  fst out !! l = fs !! l \/ fst out !! l = Some state.
Proof.
  intros Hd. cbv zeta. unfold save_checkpoint, joined, bare.
  rewrite (file_at_plain px _ "checkpoint.pth.tar") by reflexivity.
  rewrite (file_at_plain px _ "checkpoint.pth.tar") by reflexivity.
  rewrite (file_at_plain px _ "model_best.pth.tar") by reflexivity.
  rewrite (file_at_plain px _ _ (has_sep_epoch_name epoch)).
  destruct (epoch_name_fresh (format_03d epoch +:+ ".pth.tar")) as [Hn1 Hn2].
  generalize dependent ("epoch" +:+ format_03d epoch +:+ ".pth.tar").
  intros ename Hn1 Hn2. rewrite Hd.
  generalize (cwd px) (snapshot_due args epoch).
  intros wd due.
  unfold and_then, when, torch_save, copyfile.
  destruct is_best, due; cbn [fst snd];
    repeat first
      [ progress cbn [fst snd]
      | rewrite lookup_insert_eq
      | rewrite lookup_insert_ne by congruence
      | case_decide; [congruence |] ];
    destruct (decide (l = (wd, "checkpoint.pth.tar"))) as [E1 | H1];
    destruct (decide (l = (wd, "model_best.pth.tar"))) as [E2 | H2];
    destruct (decide (l = (wd, ename))) as [E3 | H3];
    try congruence; try subst l;
    repeat first
      [ rewrite lookup_insert_eq
      | rewrite lookup_insert_ne by congruence ];
    auto.
Qed.

Variables (px : Paths) (args : Args) (tr : Training) (lrs : list Q).

(** One iteration either stops with an exception of the schedule, of
    [train()] or of [validate()], and then leaves [best_prec1] and the files
    as they are; or it completes the epoch: the best is updated by [max] and
    [save_checkpoint] is called with the dictionary of this epoch. *)
Lemma epoch_body_cases (e : Z) (st : RunState) :
  let out := epoch_body px args tr lrs e st in
  let best := py_max (prec1_of tr e) (best_prec1 st) in
  let saved :=
    save_checkpoint px args (save_dict args tr e best)
      (gt (prec1_of tr e) (best_prec1 st)) e "checkpoint.pth.tar" (files st) in
  ((exists err, snd out = Raise err) /\
   best_prec1 (fst out) = best_prec1 st /\
   files (fst out) = files st /\
   trained (fst out) = trained st) \/
  (best_prec1 (fst out) = best /\
   files (fst out) = fst saved /\
   trained (fst out) = trained st ++ [e] /\
   snd out = snd saved).
Proof.
  cbv zeta. unfold epoch_body.
  destruct (adjust_learning_rate (param_groups st) e lrs (lr_decay args))
    as [gs' | err]; [| left; split; [now exists err | repeat split]].
  destruct (train_raises tr e) as [err |];
    [left; split; [now exists err | repeat split] |].
  destruct (validate_raises tr e) as [err |];
    [left; split; [now exists err | repeat split] |].
  right. destruct (save_checkpoint _ _ _ _ _ _ _) as [fs' r].
  repeat split.
Qed.

(** An epoch that goes through the schedule, [train()] and [validate()] is
    completed. *)
Lemma epoch_body_returns (e : Z) (st : RunState) :
  epoch_returns args tr e ->
  let out := epoch_body px args tr lrs e st in
  let best := py_max (prec1_of tr e) (best_prec1 st) in
  let saved :=
    save_checkpoint px args (save_dict args tr e best)
      (gt (prec1_of tr e) (best_prec1 st)) e "checkpoint.pth.tar" (files st) in
  best_prec1 (fst out) = best /\
  files (fst out) = fst saved /\
  trained (fst out) = trained st ++ [e] /\
  snd out = snd saved.
Proof.
  intros (HD & Hk & Ht & Hv). cbv zeta. unfold epoch_body.
  destruct (adjust_learning_rate_ok (param_groups st) e lrs (lr_decay args)
              HD Hk) as (gs' & -> & _).
  rewrite Ht, Hv. destruct (save_checkpoint _ _ _ _ _ _ _) as [fs' r].
  repeat split.
Qed.

(** A completed epoch leaves its dictionary in the checkpoint file, whatever
    the copies then do. *)
Lemma saved_checkpoint_file (e : Z) (st : RunState) :
  fst (save_checkpoint px args
         (save_dict args tr e (py_max (prec1_of tr e) (best_prec1 st)))
         (gt (prec1_of tr e) (best_prec1 st)) e "checkpoint.pth.tar" (files st))
    !! joined px (prefix args) "checkpoint.pth.tar"
  = Some (save_dict args tr e (py_max (prec1_of tr e) (best_prec1 st))).
Proof.
  exact (proj1 (save_checkpoint_cases px args
    (save_dict args tr e (py_max (prec1_of tr e) (best_prec1 st)))
    (gt (prec1_of tr e) (best_prec1 st)) e (files st))).
Qed.

Lemma epoch_loop_app (es1 es2 : list Z) (st : RunState) :
  epoch_loop px args tr lrs (es1 ++ es2) st
  = match epoch_loop px args tr lrs es1 st with
    | (st1, Ok _) => epoch_loop px args tr lrs es2 st1
    | (st1, Raise e) => (st1, Raise e)
    end.
Proof.
  revert st; induction es1 as [| e es1 IH]; intros st; [reflexivity |].
  cbn [app epoch_loop].
  destruct (epoch_body px args tr lrs e st) as [st1 [[] | err]];
    [apply IH | reflexivity].
Qed.

Lemma epoch_loop_one (e : Z) (st : RunState) :
  epoch_loop px args tr lrs [e] st = epoch_body px args tr lrs e st.
Proof.
  cbn [epoch_loop].
  destruct (epoch_body px args tr lrs e st) as [st1 [[] | err]]; reflexivity.
Qed.

(** The invariant of a run from [st] over the epochs [a, a + k): it completes
    an initial segment of them, of length [n], all of them unless an
    exception ends it. *)
Lemma epoch_loop_effect (k : nat) (a : Z) (st : RunState) :
  let out := epoch_loop px args tr lrs (py_range a (a + Z.of_nat k)) st in
  let st' := fst out in
  exists n : nat,
    (n <= k)%nat /\
    (snd out = Ok tt -> n = k) /\
    trained st' = trained st ++ py_range a (a + Z.of_nat n) /\
    (n = 0%nat -> files st' = files st /\ best_prec1 st' = best_prec1 st) /\
    (best_prec1 st <= best_prec1 st')%Q /\
    Forall (fun e => (prec1_of tr e <= best_prec1 st')%Q)
      (py_range a (a + Z.of_nat n)) /\
    (best_prec1 st' = best_prec1 st \/
     Exists (fun e => best_prec1 st' = prec1_of tr e)
       (py_range a (a + Z.of_nat n))) /\
    (n <> 0%nat ->
     files st' !! joined px (prefix args) "checkpoint.pth.tar"
     = Some (save_dict args tr (a + Z.of_nat n - 1) (best_prec1 st'))).
Proof.
  cbv zeta. induction k as [| k IH].
  - rewrite py_range_nil by lia. exists 0%nat. cbn [epoch_loop fst snd].
    rewrite py_range_nil by lia. rewrite app_nil_r.
    repeat split; [lia | apply Qle_refl | constructor | now left | congruence].
  - rewrite py_range_snoc, epoch_loop_app.
    destruct IH as (n & Hn & Hok & Ht & H0 & Hb & Hall & Hex & Hf).
    destruct (epoch_loop px args tr lrs (py_range a (a + Z.of_nat k)) st)
      as [st1 [[] | err]]; cbn [fst snd] in *.
    + specialize (Hok eq_refl). subst n. rewrite epoch_loop_one.
      destruct (epoch_body_cases (a + Z.of_nat k) st1)
        as [((err & Herr) & Hb2 & Hf2 & Ht2) | (Hb2 & Hf2 & Ht2 & _)];
        cbv zeta in *.
      * exists k. rewrite Hb2, Hf2, Ht2, Herr.
        repeat split; try assumption; try lia; try discriminate;
          now apply H0.
      * pose proof (saved_checkpoint_file (a + Z.of_nat k) st1) as Hck.
        rewrite <- Hf2, <- Hb2 in Hck.
        destruct (py_max_cases (prec1_of tr (a + Z.of_nat k)) (best_prec1 st1))
          as (Hp & Ho & Hcase).
        rewrite <- Hb2 in Hp, Ho, Hcase.
        set (st2 := (epoch_body px args tr lrs (a + Z.of_nat k) st1).1) in *.
        exists (S k). rewrite py_range_snoc.
        split; [lia |]. split; [reflexivity |].
        split; [rewrite Ht2, Ht, <- app_assoc; reflexivity |].
        split; [discriminate |].
        split; [eapply Qle_trans; eassumption |].
        split.
        { apply Forall_app. split; [| now repeat constructor].
          eapply Forall_impl; [exact Hall |].
          intros e He. cbv beta in He |- *. eapply Qle_trans; eassumption. }
        split.
        { destruct Hcase as [Hc | Hc].
          - right. apply Exists_app. right. now constructor.
          - destruct Hex as [Hex | Hex].
            + left. congruence.
            + right. apply Exists_app. left.
              eapply Exists_impl; [exact Hex |]. intros e He. cbv beta in *.
              congruence. }
        intros _. rewrite Hck. f_equal. f_equal. lia.
    + exists n. repeat split; try assumption; [lia | discriminate | |];
        now apply H0.
Qed.

(** In the working directory, every file the loop leaves is a file it found
    or the dictionary of an epoch it completed. *)
Lemma epoch_loop_files (es : list Z) (st : RunState) (fs0 : FS) :
  dir_of px (prefix args) = cwd px ->
  (forall l ck, files st !! l = Some ck ->
     fs0 !! l = Some ck \/
     exists e, In e (trained st) /\
       ck = save_dict args tr e (ck_best_prec1 ck) /\
       (ck_best_prec1 ck <= best_prec1 st)%Q) ->
  let st' := fst (epoch_loop px args tr lrs es st) in
  forall l ck, files st' !! l = Some ck ->
    fs0 !! l = Some ck \/
    exists e, In e (trained st') /\
      ck = save_dict args tr e (ck_best_prec1 ck) /\
      (ck_best_prec1 ck <= best_prec1 st')%Q.
Proof.
  intros Hd. cbv zeta. revert st; induction es as [| e es IH]; intros st Hinv;
    [exact Hinv |].
  cbn [epoch_loop].
  assert (forall l ck,
            files (fst (epoch_body px args tr lrs e st)) !! l = Some ck ->
            fs0 !! l = Some ck \/
            exists e', In e' (trained (fst (epoch_body px args tr lrs e st))) /\
              ck = save_dict args tr e' (ck_best_prec1 ck) /\
              (ck_best_prec1 ck
               <= best_prec1 (fst (epoch_body px args tr lrs e st)))%Q)
    as Hstep.
  { destruct (epoch_body_cases e st)
      as [(_ & Hb2 & Hf2 & Ht2) | (Hb2 & Hf2 & Ht2 & _)]; cbv zeta in *.
    - rewrite Hb2, Hf2, Ht2. exact Hinv.
    - intros l ck Hl. rewrite Hf2 in Hl.
      destruct (save_checkpoint_in_cwd px args
                  (save_dict args tr e (py_max (prec1_of tr e) (best_prec1 st)))
                  (gt (prec1_of tr e) (best_prec1 st)) e (files st) l Hd)
        as [Hsame | Hnew]; cbv zeta in *.
      + rewrite Hsame in Hl. destruct (Hinv l ck Hl) as [H | (e' & Hin & Hck & Hle)];
          [now left |].
        right. exists e'. rewrite Ht2, Hb2.
        split; [apply in_or_app; now left |]. split; [exact Hck |].
        eapply Qle_trans; [exact Hle | apply py_max_cases].
      + rewrite Hnew in Hl. injection Hl as <-. right. exists e.
        rewrite Ht2, Hb2. cbn [save_dict ck_best_prec1].
        split; [apply in_or_app; right; now left |].
        split; [reflexivity | apply Qle_refl]. }
  destruct (epoch_body px args tr lrs e st) as [st1 [[] | err]];
    cbn [fst] in *; [now apply IH | exact Hstep].
Qed.

Lemma py_range_In (a b e : Z) : In e (py_range a b) <-> a <= e < b.
Proof.
  unfold py_range. rewrite in_map_iff. split.
  - intros (i & <- & Hi). apply in_seq in Hi. lia.
  - intros H. exists (Z.to_nat (e - a)). split; [lia |]. apply in_seq. lia.
Qed.

(** In the working directory an iteration raises only what the schedule,
    [train()] or [validate()] raise. *)
Lemma epoch_body_succeeds (e : Z) (st : RunState) :
  dir_of px (prefix args) = cwd px ->
  epoch_returns args tr e ->
  snd (epoch_body px args tr lrs e st) = Ok tt.
Proof.
  intros Hd Hret.
  destruct (epoch_body_returns e st Hret) as (_ & _ & _ & ->).
  exact (proj1 (proj1 (proj2 (save_checkpoint_cases px args
    (save_dict args tr e (py_max (prec1_of tr e) (best_prec1 st)))
    (gt (prec1_of tr e) (best_prec1 st)) e (files st))) Hd)).
Qed.

Lemma epoch_loop_succeeds (es : list Z) (st : RunState) :
  dir_of px (prefix args) = cwd px ->
  Forall (epoch_returns args tr) es ->
  snd (epoch_loop px args tr lrs es st) = Ok tt.
Proof.
  intros Hd. revert st; induction es as [| e es IH]; intros st Hret;
    [reflexivity |].
  apply Forall_cons in Hret. destruct Hret as [He Hes].
  cbn [epoch_loop]. pose proof (epoch_body_succeeds e st Hd He) as H.
  destruct (epoch_body px args tr lrs e st) as [st1 r]. cbn [snd] in H.
  subst r. now apply IH.
Qed.

(** A run of at least one epoch whose first epoch goes through completes
    that epoch. *)
Lemma epoch_loop_first (k : nat) (a : Z) (st : RunState) :
  k <> 0%nat -> epoch_returns args tr a ->
  exists rest,
    trained (fst (epoch_loop px args tr lrs (py_range a (a + Z.of_nat k)) st))
    = trained st ++ a :: rest.
Proof.
  intros Hk Hret. rewrite py_range_cons by lia. cbn [epoch_loop].
  destruct (epoch_body_returns a st Hret) as (_ & _ & Ht & _). cbv zeta in Ht.
  destruct (epoch_body px args tr lrs a st) as [st1 [[] | err]];
    cbn [fst] in *; [| exists []; exact Ht].
  replace (a + Z.of_nat k) with (a + 1 + Z.of_nat (k - 1)) by lia.
  destruct (epoch_loop_effect (k - 1) (a + 1) st1) as (n & _ & _ & Ht' & _).
  cbv zeta in Ht'. rewrite Ht', Ht, <- app_assoc. now eexists.
Qed.

End EpochLoop.

(** C10: a run over the epochs from [start], stopped after at most [k] of
    them (by the end of the range or by an exception of the schedule, of
    training, of validation or of a copy), has completed an initial segment
    of the range, of [n] epochs: all [k] of them when it returns, and none
    only if it left the files and [best_prec1] as they were; it completes
    the first epoch when that epoch goes through the schedule, [train()] and
    [validate()], and it returns when all [k] do and the prefix is the
    working directory.  If it completed
    any epoch, the checkpoint file holds the dictionary of the last epoch
    completed: its epoch field is that epoch's index plus one and its
    [best_prec1] the current one.  Resuming from a checkpoint file, whichever
    it is, starts at exactly the epoch stored in it; resuming from the
    checkpoint file of this run continues with the epochs after the last one
    completed, so that the epochs completed and the epochs of the resumed
    run make up the original range, none repeated and none skipped.  When the
    prefix is the working directory every file the run changed holds the
    dictionary of an epoch it completed, with that epoch's index plus one.
    The stored [best_prec1] never decreases, bounds every precision observed
    in the run, and is the value the run started with or one of the
    precisions observed; on a fresh start (initial value 0, precisions not
    negative) it is the maximum of the precisions observed. *)
Theorem checkpoint_epoch_and_best (px : Paths) (args : Args) (tr : Training)
    (lrs : list Q) (st0 : RunState) (start : Z) (k : nat) :
  trained st0 = [] ->
  start + Z.of_nat k <= epochs args ->
  let out := epoch_loop px args tr lrs (py_range start (start + Z.of_nat k)) st0 in
  let st := fst out in
  let n := length (trained st) in
  ((n <= k)%nat /\
   (snd out = Ok tt -> n = k) /\
   trained st = py_range start (start + Z.of_nat n) /\
   (n = 0%nat -> files st = files st0 /\ best_prec1 st = best_prec1 st0) /\
   (k <> 0%nat -> epoch_returns args tr start -> n <> 0%nat) /\
   ((forall e, start <= e < start + Z.of_nat k -> epoch_returns args tr e) ->
    dir_of px (prefix args) = cwd px -> snd out = Ok tt /\ n = k)) /\
  (n <> 0%nat ->
   exists ck,
     files st !! joined px (prefix args) "checkpoint.pth.tar" = Some ck /\
     ck = save_dict args tr (start + Z.of_nat n - 1) (best_prec1 st) /\
     ck_epoch ck = List.last (trained st) start + 1 /\
     ck_epoch ck = start + Z.of_nat n /\
     ck_best_prec1 ck = best_prec1 st) /\
  (forall args' fs ck,
     resume args' <> "" ->
     fs !! joined px (prefix args') (resume args') = Some ck ->
     resume_from px args' fs = Ok (ck_epoch ck, ck_best_prec1 ck) /\
     forall groups,
       evaluate args' = false ->
       run px args' tr groups fs
       = epoch_loop px args' tr (snd groups)
           (py_range (ck_epoch ck) (epochs args'))
           {| best_prec1 := ck_best_prec1 ck; param_groups := fst groups;
              files := fs; trained := [] |}) /\
  (n <> 0%nat ->
   forall args',
     prefix args' = prefix args -> resume args' = "checkpoint.pth.tar" ->
     resume_from px args' (files st) = Ok (start + Z.of_nat n, best_prec1 st)) /\
  trained st ++ py_range (start + Z.of_nat n) (epochs args)
  = py_range start (epochs args) /\
  (dir_of px (prefix args) = cwd px ->
   forall l ck, files st !! l = Some ck ->
     files st0 !! l = Some ck \/
     exists e, In e (trained st) /\
       ck_epoch ck = e + 1 /\
       ck = save_dict args tr e (ck_best_prec1 ck) /\
       (ck_best_prec1 ck <= best_prec1 st)%Q) /\
  (best_prec1 st0 <= best_prec1 st)%Q /\
  Forall (fun e => (prec1_of tr e <= best_prec1 st)%Q) (trained st) /\
  (best_prec1 st = best_prec1 st0 \/
   Exists (fun e => best_prec1 st = prec1_of tr e) (trained st)) /\
  ((best_prec1 st0 == 0)%Q -> (forall e, (0 <= prec1_of tr e)%Q) ->
   n <> 0%nat ->
   Exists (fun e => (best_prec1 st == prec1_of tr e)%Q) (trained st)) /\
  (forall e st1,
      (best_prec1 st1 <= best_prec1 (fst (epoch_body px args tr lrs e st1)))%Q).
Proof.
  intros Ht0 Hk. cbv zeta.
  destruct (epoch_loop_effect px args tr lrs k start st0)
    as (n & Hn & Hok & Ht & H0 & Hb & Hall & Hex & Hf).
  cbv zeta in Hok, Ht, H0, Hb, Hall, Hex, Hf.
  pose proof (epoch_loop_files px args tr lrs
                (py_range start (start + Z.of_nat k)) st0 (files st0)) as Hfiles.
  pose proof (epoch_loop_first px args tr lrs k start st0) as Hfirst.
  pose proof (epoch_loop_succeeds px args tr lrs
                (py_range start (start + Z.of_nat k)) st0) as Hsucc.
  cbv zeta in Hfiles.
  destruct (epoch_loop px args tr lrs (py_range start (start + Z.of_nat k)) st0)
    as [st r]. cbn [fst snd] in *.
  rewrite Ht0 in Ht. cbn [app] in Ht.
  assert (length (trained st) = n) as Hlen by (rewrite Ht; apply py_range_length).
  rewrite Hlen. rewrite <- Ht in Hall, Hex.
  split.
  { split; [exact Hn |]. split; [exact Hok |]. split; [exact Ht |].
    split; [intros Hn0; split; now apply H0 |]. split.
    - intros Hk0 Hret Hn0. destruct (Hfirst Hk0 Hret) as (rest & Hrest).
      rewrite Hrest, Ht0 in Hlen. cbn in Hlen. lia.
    - intros Hret Hd.
      assert (r = Ok tt) as Hr.
      { apply Hsucc; [exact Hd |]. apply List.Forall_forall. intros e Hin.
        apply Hret. now apply py_range_In. }
      split; [exact Hr | now apply Hok]. }
  split.
  { intros Hn0. eexists. split; [exact (Hf Hn0) |]. split; [reflexivity |].
    cbn [save_dict ck_epoch ck_best_prec1]. split.
    { destruct n as [| m]; [congruence |].
      rewrite Ht, py_range_snoc, List.last_last. lia. }
    split; [lia | reflexivity]. }
  split.
  { intros args' fs ck Hr Hck.
    assert (String.eqb (resume args') "" = false) as Hr'
      by now apply String.eqb_neq.
    assert (resume_from px args' fs = Ok (ck_epoch ck, ck_best_prec1 ck)) as E
      by (unfold resume_from; now rewrite Hr', Hck).
    split; [exact E |]. intros groups He. unfold run. now rewrite E, He. }
  split.
  { intros Hn0 args' Hp Hr. unfold resume_from. rewrite Hr, Hp.
    cbn [String.eqb]. rewrite (Hf Hn0). cbn [save_dict ck_epoch ck_best_prec1].
    do 2 f_equal. lia. }
  split; [rewrite Ht; apply py_range_split; lia |].
  split.
  { intros Hd l ck Hl.
    destruct (Hfiles Hd (fun l ck H => or_introl H) l ck Hl)
      as [H | (e & Hin & Hck & Hle)]; [now left |].
    right. exists e. split; [exact Hin |]. split; [now rewrite Hck |].
    split; [exact Hck | exact Hle]. }
  split; [exact Hb |]. split; [exact Hall |]. split; [exact Hex |].
  split.
  { intros Hz Hpos Hn0. destruct Hex as [Hex | Hex].
    - destruct (trained st) as [| e es] eqn:Et; [cbn in Hlen; congruence |].
      constructor. apply List.Forall_inv in Hall.
      apply Qle_antisym; [| exact Hall].
      rewrite Hex, Hz. apply Hpos.
    - eapply Exists_impl; [exact Hex |]. intros e He. cbv beta in *.
      rewrite He. reflexivity. }
  intros e st1.
  destruct (epoch_body_cases px args tr lrs e st1)
    as [(_ & Hb1 & _) | (Hb1 & _)]; cbv zeta in Hb1; rewrite Hb1;
    [apply Qle_refl | apply py_max_cases].
Qed.

Lemma checkpoint_epoch_and_best_witness :
  let out :=
    epoch_loop two_dirs (with_files default_args "." "" 3) sample_training
      [1 # 10]%Q (py_range 0 (0 + Z.of_nat 2)) (fresh_state []) in
  (snd out = Ok tt -> length (trained (fst out)) = 2%nat) /\
  trained (fst out) ++ py_range (0 + Z.of_nat (length (trained (fst out)))) 3
  = py_range 0 3.
Proof.
  pose proof (checkpoint_epoch_and_best two_dirs
                (with_files default_args "." "" 3) sample_training
                [1 # 10]%Q (fresh_state []) 0 2 eq_refl ltac:(cbn; lia)) as H.
  cbv zeta in H. cbv zeta.
  split; [exact (proj1 (proj2 (proj1 H))) |].
  exact (proj1 (proj2 (proj2 (proj2 (proj2 H))))).
Defined.

(** The run above, evaluated: two epochs completed, the checkpoint of the
    second in the file, and the start epoch and best precision a resume
    reads from it; under [--print-freq 0] no epoch is completed and no file
    written. *)
Example resumed_run_values :
  let args := with_files default_args "." "checkpoint.pth.tar" 3 in
  let out :=
    epoch_loop two_dirs args sample_training [1 # 10]%Q (py_range 0 2)
      (fresh_state []) in
  let stopped :=
    epoch_loop two_dirs args print_freq_zero_training [1 # 10]%Q (py_range 0 2)
      (fresh_state []) in
  snd out = Ok tt /\
  trained (fst out) = [0; 1] /\
  resume_from two_dirs args (files (fst out)) = Ok (2, inject_Z 10) /\
  stopped = (fresh_state [], Raise ZeroDivisionError).
Proof. cbv zeta. repeat split; reflexivity. Qed.

(** * Further properties of the script *)

(** ** The split and the parameter sets *)

(** X1: the split routes a parameter to [bias_params] exactly when one of
    its names in the set ends with ["bias"] or has three characters, and to
    [nonbias_params] exactly when one of its names does neither. *)
Theorem split_bias_routing (named_params : list named_param) (p : ref) :
  (List.In p (fst (split_bias named_params)) <->
   exists name,
     List.In (name, p) named_params /\
     (PyStr.ends_with name "bias" \/ String.length name = 3%nat)) /\
  (List.In p (snd (split_bias named_params)) <->
   exists name,
     List.In (name, p) named_params /\
     ~ PyStr.ends_with name "bias" /\ String.length name <> 3%nat).
Proof.
  rewrite split_bias_spec. cbn [fst snd]. unfold bias_subset, nonbias_subset.
  split; rewrite in_map_iff; split.
  - intros ([name q] & <- & H). apply filter_In in H. destruct H as [H Hb].
    exists name. split; [exact H | now apply is_bias_name_spec].
  - intros (name & H & Hb). exists (name, p). split; [reflexivity |].
    apply filter_In. split; [exact H | now apply is_bias_name_spec].
  - intros ([name q] & <- & H). apply filter_In in H. destruct H as [H Hb].
    exists name. split; [exact H |]. cbn [fst] in Hb.
    apply negb_true_iff in Hb.
    split; intros Hc;
      (assert (is_bias_name name = true) by (apply is_bias_name_spec; tauto));
      congruence.
  - intros (name & H & Hn1 & Hn2). exists (name, p). split; [reflexivity |].
    apply filter_In. split; [exact H |]. cbn [fst]. apply negb_true_iff.
    destruct (is_bias_name name) eqn:E; [| reflexivity].
    apply is_bias_name_spec in E. tauto.
Qed.

(** X2: the split neither drops nor repeats a parameter: the two lists
    together are the set's parameters, rearranged. *)
Theorem split_bias_keeps_parameters (named_params : list named_param) :
  Permutation
    (fst (split_bias named_params) ++ snd (split_bias named_params))
    (map snd named_params).
Proof.
  rewrite split_bias_spec. cbn [fst snd]. unfold bias_subset, nonbias_subset.
  induction named_params as [| [name q] l IH]; [constructor |].
  cbn [List.filter fst]. destruct (is_bias_name name); cbn [negb map snd app].
  - now constructor.
  - rewrite <- Permutation_middle. now constructor.
Qed.

(** X4: a parameter is in the non-last set exactly when the model enumerates
    it and it is not, by identity, one of the last layer's parameters; no
    parameter is in both sets. *)
Theorem nonlast_is_enumeration_minus_last (model : Model)
    (last_named : list named_param) (p : ref) :
  List.In p
    (map snd (model_nonlast_named_parameters model (map snd last_named)))
  <-> List.In p (map snd (named_parameters model)) /\
      ~ List.In p (map snd last_named).
Proof.
  unfold model_nonlast_named_parameters. split.
  - intros H. apply in_map_iff in H. destruct H as ([name q] & <- & H).
    apply filter_In in H. destruct H as [H Hb]. cbn [snd] in *.
    split; [apply in_map_iff; now exists (name, q) |].
    intros Hin. apply is_any_In in Hin. rewrite Hin in Hb. discriminate.
  - intros [H Hn]. apply in_map_iff in H. destruct H as ([name q] & <- & H).
    apply in_map_iff. exists (name, q). split; [reflexivity |].
    apply filter_In. split; [exact H |]. cbn [snd] in *.
    destruct (is_any q (map snd last_named)) eqn:E; [| reflexivity].
    apply is_any_In in E. contradiction.
Qed.

Lemma unsupported_arch_builds_no_group_witness :
  exists e, setup small_registry (with_model default_args "None" "vgg16" true)
            = Raise e.
Proof.
  apply unsupported_arch_builds_no_group; reflexivity.
Defined.

(** ** The schedule, further *)

(** X5: the schedule does not compound: it computes from the recorded base
    rates, so adjusting groups that an earlier call already adjusted gives
    what adjusting the original groups gives. *)
Theorem schedule_does_not_compound (groups groups1 : list ParamGroup)
    (e1 e2 : Z) (lr0s : list Q) (D : Z) :
  adjust_learning_rate groups e1 lr0s D = Ok groups1 ->
  adjust_learning_rate groups1 e2 lr0s D
  = adjust_learning_rate groups e2 lr0s D.
Proof.
  revert groups1 lr0s; induction groups as [| g gs IH]; intros groups1 lr0s H.
  - cbn in H. now injection H as <-.
  - destruct lr0s as [| lr0 ls]; [cbn in H; now injection H as <- |].
    cbn [adjust_learning_rate] in H.
    destruct (decayed_lr lr0 e1 D) as [r1 |] eqn:E1; cbn [bind] in H;
      [| discriminate].
    destruct (adjust_learning_rate gs e1 ls D) as [gs1 |] eqn:E; cbn [bind] in H;
      [| discriminate].
    injection H as <-. cbn [adjust_learning_rate].
    rewrite (IH gs1 ls E).
    destruct (decayed_lr lr0 e2 D); cbn [bind]; [| reflexivity].
    destruct (adjust_learning_rate gs e2 ls D); reflexivity.
Qed.

Lemma schedule_does_not_compound_witness :
  adjust_learning_rate
    [ {| params := [1%nat]; group_lr := (1 # 10) * (1 # 10) ^ (25 / 10);
         group_batch_manhattan := false; group_no_sign_change := false |} ]
    31 [1 # 10]%Q 10
  = adjust_learning_rate
      [ {| params := [1%nat]; group_lr := 1 # 10;
           group_batch_manhattan := false; group_no_sign_change := false |} ]
      31 [1 # 10]%Q 10.
Proof.
  apply (schedule_does_not_compound _ _ 25). reflexivity.
Defined.

Section ScheduleOrder.

Lemma tenth_power_le_1 (n : nat) :
  (0 < (1 # 10) ^ Z.of_nat n /\ (1 # 10) ^ Z.of_nat n <= 1)%Q.
Proof.
  induction n as [| n [IH0 IH1]]; [split; [reflexivity | discriminate] |].
  replace (Z.of_nat (S n)) with (1 + Z.of_nat n) by lia.
  rewrite Qpower_plus by discriminate. split.
  - apply Qmult_lt_0_compat; [reflexivity | exact IH0].
  - apply (Qle_trans _ (1 * 1)); [| discriminate].
    apply Qmult_le_compat_nonneg; split;
      [discriminate | discriminate | now apply Qlt_le_weak | exact IH1].
Qed.

Lemma tenth_power_antitone (k1 k2 : Z) :
  k1 <= k2 -> ((1 # 10) ^ k2 <= (1 # 10) ^ k1)%Q.
Proof.
  intros H. replace k2 with (k1 + Z.of_nat (Z.to_nat (k2 - k1))) by lia.
  rewrite Qpower_plus by discriminate.
  rewrite <- (Qmult_1_r ((1 # 10) ^ k1)) at 2.
  apply Qmult_le_l; [apply Qpower_0_lt; reflexivity |].
  apply tenth_power_le_1.
Qed.

End ScheduleOrder.

(** X7: with a positive cadence and a base rate that is not negative, the
    rate the schedule writes never increases from one epoch to a later one,
    and from epoch 0 on it never exceeds the base rate. *)
Theorem schedule_rates_never_increase (groups groups1 groups2 : list ParamGroup)
    (lr0s : list Q) (D e1 e2 : Z) (i : nat) (g1 g2 : ParamGroup) (lr0 : Q) :
  0 < D -> e1 <= e2 ->
  adjust_learning_rate groups e1 lr0s D = Ok groups1 ->
  adjust_learning_rate groups e2 lr0s D = Ok groups2 ->
  lr0s !! i = Some lr0 -> (0 <= lr0)%Q ->
  groups1 !! i = Some g1 -> groups2 !! i = Some g2 ->
  (group_lr g2 <= group_lr g1)%Q /\
  (0 <= e1 -> (group_lr g1 <= lr0)%Q).
Proof.
  intros HD He E1 E2 Hl Hpos H1 H2.
  pose proof (adjust_learning_rate_length _ _ _ _ _ E1) as Hlen.
  destruct (groups !! i) as [g |] eqn:Hg.
  2: { apply lookup_ge_None in Hg. apply lookup_lt_Some in H1. lia. }
  rewrite (adjust_learning_rate_lookup _ _ _ _ _ _ _ _ E1 Hg Hl) in H1.
  rewrite (adjust_learning_rate_lookup _ _ _ _ _ _ _ _ E2 Hg Hl) in H2.
  injection H1 as <-. injection H2 as <-. cbn [set_group_lr group_lr]. split.
  - apply Qmult_le_compat_nonneg.
    + split; [exact Hpos | apply Qle_refl].
    + split; [apply Qpower_0_le; discriminate |].
      apply tenth_power_antitone. now apply Z.div_le_mono.
  - intros H0. rewrite <- (Qmult_1_r lr0) at 2.
    apply Qmult_le_compat_nonneg.
    + split; [exact Hpos | apply Qle_refl].
    + split; [apply Qpower_0_le; discriminate |].
      apply (tenth_power_antitone 0). now apply Z.div_pos.
Qed.

Lemma schedule_rates_never_increase_witness :
  ((1 # 10) * (1 # 10) ^ (25 / 10) <= (1 # 10) * (1 # 10) ^ (9 / 10))%Q.
Proof.
  pose (g := fun rate : Q =>
          {| params := [1%nat]; group_lr := rate;
             group_batch_manhattan := false; group_no_sign_change := false |}).
  apply (schedule_rates_never_increase
           [g (1 # 10)%Q]
           [g ((1 # 10) * (1 # 10) ^ (9 / 10))%Q]
           [g ((1 # 10) * (1 # 10) ^ (25 / 10))%Q]
           [1 # 10]%Q 10 9 25 0%nat
           (g ((1 # 10) * (1 # 10) ^ (9 / 10))%Q)
           (g ((1 # 10) * (1 # 10) ^ (25 / 10))%Q)
           (1 # 10)%Q);
    first [reflexivity | lia | discriminate].
Defined.

(** X6: with [--lr-decay 0] a training run stops on the division by zero of
    the schedule before it trains an epoch or writes a file: the builder
    always gives the schedule a group and a base rate to work on. *)
Theorem zero_decay_stops_before_training (px : Paths) (args : Args)
    (tr : Training) (nonlast_named last_named : list named_param) (fs : FS) :
  lr_decay args = 0 -> resume args = "" -> evaluate args = false ->
  start_epoch args < epochs args ->
  run px args tr (build_param_groups args nonlast_named last_named) fs
  = ({| best_prec1 := 0;
        param_groups := fst (build_param_groups args nonlast_named last_named);
        files := fs; trained := [] |},
     Raise ZeroDivisionError).
Proof.
  intros HD Hr He Hs. unfold run, resume_from. rewrite Hr, He. cbn [String.eqb].
  rewrite py_range_cons by exact Hs. cbn [epoch_loop]. unfold epoch_body.
  cbn [param_groups]. rewrite HD, build_param_groups_spec.
  cbn [set_configs flat_map fst snd]. unfold emitted_groups at 1 3.
  cbn [use_nsc]. destruct (no_sign_change args); reflexivity.
Qed.

Lemma zero_decay_stops_before_training_witness :
  let args :=
    {| algo := "sign_symmetry"; last_layer_algo := "None";
       batch_manhattan := false; last_layer_batch_manhattan := false;
       no_sign_change := false; last_layer_no_sign_change := false;
       lr := 1 # 10; llr := 1 # 10; lr_decay := 0;
       save_every_epoch := false; save_every_n_epochs := -1;
       prefix := "."; arch := "resnet18"; epochs := 90; start_epoch := 0;
       resume := ""; evaluate := false; pretrained := false;
       world_size := 1; gpu := None |} in
  snd (run two_dirs args sample_training
         (build_param_groups args [("conv1.weight", 1%nat)]
            [("weight", 2%nat)]) ∅)
  = Raise ZeroDivisionError.
Proof.
  cbv zeta.
  rewrite (zero_decay_stops_before_training two_dirs _ sample_training
             [("conv1.weight", 1%nat)] [("weight", 2%nat)] ∅);
    first [reflexivity | lia].
Defined.

(** ** Checkpoint files, further *)

Section SnapshotNames.

Lemma digits_value_zeros (k : nat) (s : string) : digits_value (zeros k +:+ s) = digits_value s.
Proof.
  induction k as [| k IH]; [reflexivity |].
  change (zeros (S k) +:+ s) with (String "0" (zeros k +:+ s)).
  unfold digits_value in *. cbn [NilEmpty.uint_of_string].
  rewrite <- IH.
  destruct (NilEmpty.uint_of_string (zeros k +:+ s)) as [d |]; reflexivity.
Qed.

Lemma digits_value_decimal (n : Z) : digits_value (decimal n) = Some (Z.to_N n).
Proof.
  unfold digits_value, decimal, NilZero.string_of_uint.
  rewrite <- (DecimalN.Unsigned.of_to (Z.to_N n)) at 2.
  destruct (N.to_uint (Z.to_N n)) eqn:E; try reflexivity;
    rewrite NilEmpty.usu; reflexivity.
Qed.

Lemma digits_value_minus (s : string) : digits_value (String "-" s) = None.
Proof.
  unfold digits_value. cbn [NilEmpty.uint_of_string].
  destruct (NilEmpty.uint_of_string s); reflexivity.
Qed.

Lemma digits_value_format_03d (n : Z) :
  0 <= n -> digits_value (format_03d n) = Some (Z.to_N n).
Proof.
  intros H. unfold format_03d, zfill.
  destruct (n <? 0) eqn:E; [lia |]. now rewrite digits_value_zeros, digits_value_decimal.
Qed.

Lemma format_03d_negative (n : Z) :
  n < 0 -> format_03d n = String "-" (zfill 2 (decimal (- n))).
Proof.
  intros H. unfold format_03d. destruct (n <? 0) eqn:E; [reflexivity | lia].
Qed.

Lemma format_03d_injective (a b : Z) : format_03d a = format_03d b -> a = b.
Proof.
  intros H. destruct (Z.lt_ge_cases a 0) as [Ha | Ha];
    destruct (Z.lt_ge_cases b 0) as [Hb | Hb].
  - rewrite !format_03d_negative in H by assumption. injection H as H.
    apply (f_equal digits_value) in H. unfold zfill in H.
    rewrite !digits_value_zeros, !digits_value_decimal in H. injection H as H. lia.
  - apply (f_equal digits_value) in H.
    rewrite format_03d_negative, digits_value_minus in H by assumption.
    rewrite digits_value_format_03d in H by assumption. discriminate.
  - apply (f_equal digits_value) in H.
    rewrite (format_03d_negative b), digits_value_minus in H by assumption.
    rewrite digits_value_format_03d in H by assumption. discriminate.
  - apply (f_equal digits_value) in H.
    rewrite !digits_value_format_03d in H by assumption. injection H as H. lia.
Qed.

End SnapshotNames.

(** Different epochs give different snapshot files. *)
Lemma snapshot_file_injective (px : Paths) (prefix_ : string) (e1 e2 : Z) :
  e1 <> e2 ->
  joined px prefix_ ("epoch" +:+ format_03d e1 +:+ ".pth.tar")
  <> joined px prefix_ ("epoch" +:+ format_03d e2 +:+ ".pth.tar").
Proof.
  unfold joined. rewrite !file_at_plain by apply has_sep_epoch_name.
  intros Hne H. injection H as H. apply Hne.
  apply format_03d_injective.
  assert (forall s t u : string, s +:+ u = t +:+ u -> s = t) as Hcancel.
  { intros s t u Hu. apply (f_equal String.length) in Hu as Hlen.
    rewrite !append_length in Hlen.
    revert t Hu Hlen; induction s as [| c s IH]; intros [| c' t] Hu Hlen;
      cbn in Hlen; try lia; [reflexivity |].
    injection Hu as -> Hu. f_equal. apply IH; [exact Hu | lia]. }
  now apply (Hcancel _ _ ".pth.tar").
Qed.

(** X9: the per-epoch snapshots have unique names: two different epochs
    never give the same file name, so within the prefix directory a snapshot
    is never the file of another epoch. *)
Theorem snapshot_names_are_unique (px : Paths) (prefix_ : string) (e1 e2 : Z) :
  e1 <> e2 ->
  joined px prefix_ ("epoch" +:+ format_03d e1 +:+ ".pth.tar")
  <> joined px prefix_ ("epoch" +:+ format_03d e2 +:+ ".pth.tar").
Proof. exact (snapshot_file_injective px prefix_ e1 e2). Qed.


Lemma snapshot_names_are_unique_witness :
  joined two_dirs "out" ("epoch" +:+ format_03d 7 +:+ ".pth.tar")
  <> joined two_dirs "out" ("epoch" +:+ format_03d 70 +:+ ".pth.tar").
Proof.
  apply (snapshot_names_are_unique two_dirs "out" 7 70). lia.
Defined.

(** The files [save_checkpoint] leaves alone. *)
Lemma save_checkpoint_frame (px : Paths) (args : Args)
    (state : Checkpoint) (is_best : bool) (epoch : Z) (fs : FS) (l : loc) :
  l <> joined px (prefix args) "checkpoint.pth.tar" ->
  l <> joined px (prefix args) "model_best.pth.tar" ->
  l <> joined px (prefix args) ("epoch" +:+ format_03d epoch +:+ ".pth.tar") ->
  fst (save_checkpoint px args state is_best epoch "checkpoint.pth.tar" fs) !! l
  = fs !! l.
Proof.
  unfold save_checkpoint, joined, bare.
  rewrite (file_at_plain px _ "checkpoint.pth.tar") by reflexivity.
  rewrite (file_at_plain px _ "checkpoint.pth.tar") by reflexivity.
  rewrite (file_at_plain px _ "model_best.pth.tar") by reflexivity.
  rewrite (file_at_plain px _ _ (has_sep_epoch_name epoch)).
  generalize ("epoch" +:+ format_03d epoch +:+ ".pth.tar").
  generalize (dir_of px (prefix args)) (cwd px) (snapshot_due args epoch).
  intros pd wd due ename H1 H2 H3.
  unfold and_then, when, torch_save, copyfile.
  destruct is_best, due; cbn [fst snd];
    repeat first
      [ progress cbn [fst snd]
      | progress simplify_eq
      | rewrite lookup_insert_ne by congruence
      | case_match ];
    reflexivity.
Qed.

(** X8: [save_checkpoint] changes no file other than the checkpoint, the
    best-model copy and the snapshot of its epoch, all three in the prefix
    directory; whatever else is in the file tree, in particular a file of
    the working directory, stays as it was, also when a copy fails. *)
Theorem save_checkpoint_touches_three_files (px : Paths) (args : Args)
    (state : Checkpoint) (is_best : bool) (epoch : Z) (fs : FS) (l : loc) :
  l <> joined px (prefix args) "checkpoint.pth.tar" ->
  l <> joined px (prefix args) "model_best.pth.tar" ->
  l <> joined px (prefix args) ("epoch" +:+ format_03d epoch +:+ ".pth.tar") ->
  fst (save_checkpoint px args state is_best epoch "checkpoint.pth.tar" fs) !! l
  = fs !! l.
Proof.
  exact (save_checkpoint_frame px args state is_best epoch fs l).
Qed.


Lemma save_checkpoint_touches_three_files_witness :
  fst (save_checkpoint two_dirs (with_files default_args "out" "" 90)
         (sample_checkpoint 8 (1 # 2)) true 7 "checkpoint.pth.tar"
         {[ (0%nat, "checkpoint.pth.tar") := sample_checkpoint 3 (1 # 4) ]})
    !! (0%nat, "checkpoint.pth.tar")
  = ({[ (0%nat, "checkpoint.pth.tar") := sample_checkpoint 3 (1 # 4) ]} : FS)
      !! (0%nat, "checkpoint.pth.tar").
Proof.
  apply save_checkpoint_touches_three_files; discriminate.
Defined.

(** ** Whole runs *)

Section WholeRuns.

Variables (px : Paths) (args : Args) (tr : Training) (lrs : list Q).

Lemma py_range_as_nat (a b : Z) :
  py_range a b = py_range a (a + Z.of_nat (Z.to_nat (b - a))).
Proof. unfold py_range. f_equal. f_equal. lia. Qed.

(** The snapshot of an epoch is left alone by the iterations of other
    epochs. *)
Lemma epoch_loop_keeps_snapshot (es : list Z) (st : RunState) (e : Z) :
  ~ In e es ->
  files (fst (epoch_loop px args tr lrs es st))
    !! joined px (prefix args) ("epoch" +:+ format_03d e +:+ ".pth.tar")
  = files st
      !! joined px (prefix args) ("epoch" +:+ format_03d e +:+ ".pth.tar").
Proof.
  revert st; induction es as [| e' es IH]; intros st Hnot; [reflexivity |].
  cbn [epoch_loop].
  assert (files (fst (epoch_body px args tr lrs e' st))
            !! joined px (prefix args) ("epoch" +:+ format_03d e +:+ ".pth.tar")
          = files st
              !! joined px (prefix args)
                   ("epoch" +:+ format_03d e +:+ ".pth.tar")) as Hstep.
  { destruct (epoch_body_cases px args tr lrs e' st)
      as [(_ & _ & Hf & _) | (_ & Hf & _)]; cbv zeta in Hf; rewrite Hf;
      [reflexivity |].
    apply save_checkpoint_frame.
    - unfold joined. rewrite (file_at_plain px _ _ (has_sep_epoch_name e)).
      rewrite (file_at_plain px _ "checkpoint.pth.tar") by reflexivity.
      intros H. exact (proj1 (epoch_name_fresh _) (f_equal snd H)).
    - unfold joined. rewrite (file_at_plain px _ _ (has_sep_epoch_name e)).
      rewrite (file_at_plain px _ "model_best.pth.tar") by reflexivity.
      intros H. exact (proj2 (epoch_name_fresh _) (f_equal snd H)).
    - apply snapshot_file_injective. intros ->. apply Hnot. now left. }
  destruct (epoch_body px args tr lrs e' st) as [st1 [[] | err]];
    cbn [fst] in *; [| exact Hstep].
  rewrite IH; [exact Hstep |]. intros H. apply Hnot. now right.
Qed.

(** The loop stops where [train()] raises. *)
Lemma epoch_body_train_raises (e : Z) (st : RunState) (err : exn) :
  lr_decay args <> 0 -> power_in_range (e / lr_decay args) ->
  train_raises tr e = Some err ->
  snd (epoch_body px args tr lrs e st) = Raise err /\
  files (fst (epoch_body px args tr lrs e st)) = files st /\
  best_prec1 (fst (epoch_body px args tr lrs e st)) = best_prec1 st /\
  trained (fst (epoch_body px args tr lrs e st)) = trained st.
Proof.
  intros HD Hk Ht. unfold epoch_body.
  destruct (adjust_learning_rate_ok (param_groups st) e lrs (lr_decay args)
              HD Hk) as (gs' & -> & _).
  rewrite Ht. repeat split.
Qed.

End WholeRuns.

(** X10: when the prefix directory is the working directory and every epoch
    of the run goes through the schedule, [train()] and [validate()] without
    an exception (the cadence is not zero, the power of the schedule is a
    float, and neither the model, the loader nor [--print-freq 0] stops
    them), a training run (fresh or resumed) does not raise: it completes
    exactly the epochs from its start epoch up to [epochs], in order, and if
    there was any, the checkpoint file ends with [epoch = epochs] and the
    final [best_prec1]. *)
Theorem run_completes_in_working_directory (px : Paths) (args : Args)
    (tr : Training) (groups : builder_state) (fs : FS) (start : Z) (best : Q) :
  dir_of px (prefix args) = cwd px ->
  evaluate args = false ->
  resume_from px args fs = Ok (start, best) ->
  (forall e, start <= e < epochs args -> epoch_returns args tr e) ->
  let out := run px args tr groups fs in
  snd out = Ok tt /\
  trained (fst out) = py_range start (epochs args) /\
  (start < epochs args ->
   exists ck,
     files (fst out) !! joined px (prefix args) "checkpoint.pth.tar" = Some ck /\
     ck_epoch ck = epochs args /\
     ck_best_prec1 ck = best_prec1 (fst out)).
Proof.
  intros Hd He Hr Hret. cbv zeta. unfold run. rewrite Hr, He.
  set (st0 := {| best_prec1 := best; param_groups := fst groups;
                 files := fs; trained := [] |}).
  assert (Forall (epoch_returns args tr) (py_range start (epochs args))) as Hall.
  { apply List.Forall_forall. intros e Hin. apply Hret.
    now apply py_range_In. }
  pose proof (epoch_loop_succeeds px args tr (snd groups)
                (py_range start (epochs args)) st0 Hd Hall) as Hok.
  split; [exact Hok |].
  rewrite py_range_as_nat in Hok |- *.
  destruct (epoch_loop_effect px args tr (snd groups)
              (Z.to_nat (epochs args - start)) start st0)
    as (n & _ & Hn & Ht & _ & _ & _ & _ & Hf).
  cbv zeta in Hn, Ht, Hf. specialize (Hn Hok). subst n.
  rewrite <- py_range_as_nat in *.
  split; [exact Ht |].
  intros Hlt. eexists. split; [apply Hf; lia |].
  cbn [save_dict ck_epoch ck_best_prec1]. split; [lia | reflexivity].
Qed.

Lemma run_completes_in_working_directory_witness :
  snd (run two_dirs (with_files default_args "." "" 3) sample_training
         ([], [1 # 10]%Q) ∅) = Ok tt.
Proof.
  apply (run_completes_in_working_directory two_dirs
           (with_files default_args "." "" 3) sample_training
           ([], [1 # 10]%Q) ∅ 0 0%Q);
    try first [discriminate | reflexivity].
  intros e He. change (epochs (with_files default_args "." "" 3)) with 3 in He.
  assert (e = 0 \/ e = 1 \/ e = 2) as [-> | [-> | ->]] by lia;
    (split; [discriminate |]); (split; [split; reflexivity |]);
    split; reflexivity.
Defined.

(** X11: when the prefix directory is not the working directory and the
    working directory has no [checkpoint.pth.tar], a fresh run whose first
    epoch goes through the schedule, [train()] and [validate()] and improves
    on the initial [best_prec1 = 0] (or is due a snapshot) stops in that
    epoch with [FileNotFoundError]: one epoch is completed, its checkpoint
    is written in the prefix directory, and nothing more. *)
Theorem run_stops_at_first_copy (px : Paths) (args : Args) (tr : Training)
    (groups : builder_state) (fs : FS) :
  epoch_returns args tr (start_epoch args) ->
  dir_of px (prefix args) <> cwd px ->
  fs !! bare px "checkpoint.pth.tar" = None ->
  resume args = "" -> evaluate args = false ->
  start_epoch args < epochs args ->
  (0 < prec1_of tr (start_epoch args))%Q
  \/ snapshot_due args (start_epoch args) = true ->
  let out := run px args tr groups fs in
  snd out = Raise (FileNotFoundError "checkpoint.pth.tar") /\
  trained (fst out) = [start_epoch args] /\
  files (fst out) !! joined px (prefix args) "checkpoint.pth.tar"
  = Some (save_dict args tr (start_epoch args) (best_prec1 (fst out))).
Proof.
  intros Hret Hd Hfs Hr He Hs Hdue. cbv zeta. unfold run, resume_from.
  rewrite Hr, He. cbn [String.eqb].
  rewrite py_range_cons by exact Hs. cbn [epoch_loop].
  set (st0 := {| best_prec1 := 0; param_groups := fst groups;
                 files := fs; trained := [] |}).
  destruct (epoch_body_returns px args tr (snd groups) (start_epoch args) st0 Hret)
    as (Hb & Hf & Ht & Hres). cbv zeta in Hb, Hf, Ht, Hres.
  pose proof (saved_checkpoint_file px args tr (start_epoch args) st0) as Hck.
  rewrite <- Hf, <- Hb in Hck.
  assert (snd (epoch_body px args tr (snd groups) (start_epoch args) st0)
          = Raise (FileNotFoundError "checkpoint.pth.tar")) as Hraise.
  { rewrite Hres.
    apply (proj1 (proj2 (proj2 (save_checkpoint_cases px args
      (save_dict args tr (start_epoch args)
         (py_max (prec1_of tr (start_epoch args)) (best_prec1 st0)))
      (gt (prec1_of tr (start_epoch args)) (best_prec1 st0))
      (start_epoch args) (files st0)))) Hd Hfs).
    destruct Hdue as [Hp | Hp].
    - apply orb_true_iff. left. unfold gt. cbn [best_prec1 st0].
      apply negb_true_iff. destruct (Qle_bool _ 0) eqn:E; [| reflexivity].
      apply Qle_bool_iff in E. exfalso. exact (Qlt_not_le _ _ Hp E).
    - rewrite Hp. apply orb_true_r. }
  destruct (epoch_body px args tr (snd groups) (start_epoch args) st0)
    as [st1 r]. cbn [fst snd] in *. rewrite Hraise. cbn [fst snd].
  split; [reflexivity |]. split; [exact Ht | exact Hck].
Qed.

Lemma run_stops_at_first_copy_witness :
  snd (run two_dirs
         {| algo := "sign_symmetry"; last_layer_algo := "None";
            batch_manhattan := false; last_layer_batch_manhattan := false;
            no_sign_change := false; last_layer_no_sign_change := false;
            lr := 1 # 10; llr := 1 # 10; lr_decay := 10;
            save_every_epoch := true; save_every_n_epochs := -1;
            prefix := "out"; arch := "resnet18"; epochs := 90; start_epoch := 0;
            resume := ""; evaluate := false; pretrained := false;
            world_size := 1; gpu := None |}
         sample_training ([], [1 # 10]%Q) ∅)
  = Raise (FileNotFoundError "checkpoint.pth.tar").
Proof.
  apply run_stops_at_first_copy;
    first [discriminate | reflexivity | now right | idtac].
  split; [discriminate |]. split; [split; reflexivity |]. split; reflexivity.
Defined.

(** X12: in a training run in the working directory, an epoch that was due a
    snapshot, by [--save-every-epoch] or [--save-every-n-epochs], and up to
    which every epoch went through the schedule, [train()] and [validate()],
    has its file [epochNNN.pth.tar] at the end of the run, and the file
    holds that epoch's own checkpoint (epoch field, model and optimizer
    state): no later epoch has overwritten it, also when a later epoch stops
    the run with an exception. *)
Theorem snapshots_survive_the_run (px : Paths) (args : Args) (tr : Training)
    (groups : builder_state) (fs : FS) (start : Z) (best : Q) (e : Z) :
  dir_of px (prefix args) = cwd px ->
  evaluate args = false ->
  resume_from px args fs = Ok (start, best) ->
  start <= e < epochs args ->
  (forall e', start <= e' <= e -> epoch_returns args tr e') ->
  snapshot_due args e = true ->
  exists ck,
    files (fst (run px args tr groups fs))
      !! joined px (prefix args) ("epoch" +:+ format_03d e +:+ ".pth.tar")
    = Some ck /\
    ck_epoch ck = e + 1 /\
    ck_state_dict ck = state_dict_after tr e /\
    ck_optimizer ck = optimizer_after tr e.
Proof.
  intros Hd He Hr Hrange Hret Hdue. unfold run. rewrite Hr, He.
  set (st0 := {| best_prec1 := best; param_groups := fst groups;
                 files := fs; trained := [] |}).
  assert (py_range start (epochs args)
          = py_range start e ++ [e] ++ py_range (e + 1) (epochs args)) as ->.
  { rewrite <- (py_range_split start (epochs args) (Z.to_nat (e - start)))
      by lia.
    replace (start + Z.of_nat (Z.to_nat (e - start))) with e by lia.
    f_equal. rewrite (py_range_cons e) by lia. reflexivity. }
  rewrite epoch_loop_app.
  assert (Forall (epoch_returns args tr) (py_range start e)) as Hall.
  { apply List.Forall_forall. intros e' Hin. apply py_range_In in Hin.
    apply Hret. lia. }
  pose proof (epoch_loop_succeeds px args tr (snd groups) (py_range start e)
                st0 Hd Hall) as Hok.
  destruct (epoch_loop px args tr (snd groups) (py_range start e) st0)
    as [st1 r]. cbn [snd] in Hok. subst r.
  rewrite epoch_loop_app, epoch_loop_one.
  assert (epoch_returns args tr e) as Hre by (apply Hret; lia).
  pose proof (epoch_body_succeeds px args tr (snd groups) e st1 Hd Hre) as Hok2.
  destruct (epoch_body_returns px args tr (snd groups) e st1 Hre)
    as (Hb & Hf & _). cbv zeta in Hb, Hf.
  pose proof (proj2 (proj2 (proj1 (proj2 (save_checkpoint_cases px args
    (save_dict args tr e (py_max (prec1_of tr e) (best_prec1 st1)))
    (gt (prec1_of tr e) (best_prec1 st1)) e (files st1))) Hd)) Hdue) as Hsnap.
  cbv zeta in Hsnap. rewrite <- Hf in Hsnap.
  destruct (epoch_body px args tr (snd groups) e st1) as [st2 r2].
  cbn [fst snd] in *. subst r2.
  rewrite epoch_loop_keeps_snapshot
    by (intros Hin; apply py_range_In in Hin; lia).
  eexists. split; [exact Hsnap |]. repeat split.
Qed.

Lemma snapshots_survive_the_run_witness :
  let args :=
    {| algo := "sign_symmetry"; last_layer_algo := "None";
       batch_manhattan := false; last_layer_batch_manhattan := false;
       no_sign_change := false; last_layer_no_sign_change := false;
       lr := 1 # 10; llr := 1 # 10; lr_decay := 10;
       save_every_epoch := false; save_every_n_epochs := 2;
       prefix := "."; arch := "resnet18"; epochs := 4; start_epoch := 0;
       resume := ""; evaluate := false; pretrained := false;
       world_size := 1; gpu := None |} in
  exists ck,
    files (fst (run two_dirs args sample_training ([], [1 # 10]%Q) ∅))
      !! joined two_dirs (prefix args) ("epoch" +:+ format_03d 2 +:+ ".pth.tar")
    = Some ck /\
    ck_epoch ck = 2 + 1 /\
    ck_state_dict ck = state_dict_after sample_training 2 /\
    ck_optimizer ck = optimizer_after sample_training 2.
Proof.
  cbv zeta.
  apply (snapshots_survive_the_run two_dirs _ sample_training
           ([], [1 # 10]%Q) ∅ 0 0%Q 2);
    try first [discriminate | reflexivity | cbn; lia].
  intros e He.
  assert (e = 0 \/ e = 1 \/ e = 2) as [-> | [-> | ->]] by lia;
    (split; [discriminate |]); (split; [split; reflexivity |]);
    split; reflexivity.
Defined.

(** X21: a training run whose first epoch goes through the schedule but
    whose [train()] raises (as it does in its first batch under
    [--print-freq 0], on [i % args.print_freq]) stops with that exception
    before it completes an epoch: no file is written and [best_prec1] stays
    what it was. *)
Theorem run_stops_where_training_raises (px : Paths) (args : Args)
    (tr : Training) (groups : builder_state) (fs : FS) (start : Z) (best : Q)
    (err : exn) :
  evaluate args = false ->
  resume_from px args fs = Ok (start, best) ->
  start < epochs args ->
  lr_decay args <> 0 -> power_in_range (start / lr_decay args) ->
  train_raises tr start = Some err ->
  let out := run px args tr groups fs in
  snd out = Raise err /\
  trained (fst out) = [] /\
  files (fst out) = fs /\
  best_prec1 (fst out) = best.
Proof.
  intros He Hr Hs HD Hk Ht. cbv zeta. unfold run. rewrite Hr, He.
  rewrite py_range_cons by exact Hs. cbn [epoch_loop].
  destruct (epoch_body_train_raises px args tr (snd groups) start
              {| best_prec1 := best; param_groups := fst groups;
                 files := fs; trained := [] |} err HD Hk Ht)
    as (H1 & H2 & H3 & H4).
  destruct (epoch_body px args tr (snd groups) start _) as [st1 r].
  cbn [fst snd] in *. subst r. cbn [fst snd]. auto.
Qed.

Lemma run_stops_where_training_raises_witness :
  snd (run two_dirs (with_files default_args "." "" 3) print_freq_zero_training
         ([], [1 # 10]%Q) ∅) = Raise ZeroDivisionError.
Proof.
  apply (run_stops_where_training_raises two_dirs
           (with_files default_args "." "" 3) print_freq_zero_training
           ([], [1 # 10]%Q) ∅ 0 0%Q ZeroDivisionError);
    try first [discriminate | reflexivity | cbn; lia].
  split; reflexivity.
Defined.

(** ** Running averages *)

Section Meters.

Import Metrics.



End Meters.



(** ** Precision at k *)

Section Accuracy.

Import Metrics.

Lemma list_sum_step (a : nat) (l : list nat) :
  list_sum (a :: l) = (a + list_sum l)%nat.
Proof. reflexivity. Qed.

Lemma flat_sum_app (a b : list (list bool)) :
  flat_sum (a ++ b) = flat_sum a + flat_sum b.
Proof.
  unfold flat_sum. rewrite concat_app.
  induction (concat a) as [| x l IH]; cbn [app fold_right]; [lia |].
  rewrite IH. lia.
Qed.

(** One row of [correct]: the samples whose prediction of rank [j] is the
    target. *)
Lemma flat_sum_rank (j : nat) (pred : list (list nat)) (tgt : list nat) :
  flat_sum
    [map (fun pt => Nat.eqb (fst pt) (snd pt))
       (combine (map (fun row => nth j row 0%nat) pred) tgt)]
  = Z.of_nat
      (list_sum
         (map (fun rt => if Nat.eqb (nth j (fst rt) 0%nat) (snd rt)
                         then 1%nat else 0%nat)
            (combine pred tgt))).
Proof.
  unfold flat_sum. cbn [concat]. rewrite app_nil_r.
  revert tgt; induction pred as [| row pred IH]; intros [| t tgt];
    try reflexivity.
  cbn [map combine fold_right fst snd]. rewrite IH, list_sum_step.
  destruct (Nat.eqb (nth j row 0%nat) t); lia.
Qed.

Lemma hits_succ (n : nat) (pred : list (list nat)) (tgt : list nat) :
  Forall (fun row => (n < length row)%nat) pred ->
  hits (S n) pred tgt
  = (hits n pred tgt
     + list_sum
         (map (fun rt => if Nat.eqb (nth n (fst rt) 0%nat) (snd rt)
                         then 1%nat else 0%nat)
            (combine pred tgt)))%nat.
Proof.
  unfold hits. revert tgt; induction pred as [| row pred IH];
    intros [| t tgt] H; try reflexivity.
  apply Forall_cons in H. destruct H as [Hrow H].
  cbn [combine map fst snd]. rewrite !list_sum_step, (IH tgt H).
  assert (take (S n) row = take n row ++ [nth n row 0%nat]) as ->.
  { apply take_S_r. destruct (row !! n) as [x |] eqn:E.
    - now rewrite (nth_lookup_Some _ _ 0%nat _ E).
    - apply lookup_ge_None in E. lia. }
  rewrite count_occ_app. cbn [count_occ].
  destruct (Nat.eq_dec (nth n row 0%nat) t) as [E | E].
  - apply Nat.eqb_eq in E. rewrite E. lia.
  - apply Nat.eqb_neq in E. rewrite E. lia.
Qed.

(** The first [n] rows of [correct] count the samples whose target is among
    their first [n] predictions. *)
Lemma flat_sum_ranks (n : nat) (pred : list (list nat)) (tgt : list nat) :
  Forall (fun row => (n <= length row)%nat) pred ->
  flat_sum (eq_rows (transpose n pred) tgt) = Z.of_nat (hits n pred tgt).
Proof.
  induction n as [| n IH]; intros H.
  - unfold hits. cbn. induction (combine pred tgt) as [| rt l IHl];
      [reflexivity |]. cbn [map]. rewrite list_sum_step, take_0. cbn.
    exact IHl.
  - unfold transpose, eq_rows in *. rewrite seq_S, !map_app, flat_sum_app.
    rewrite IH by (eapply Forall_impl; [exact H | cbv beta; lia]).
    cbn [map Nat.add]. rewrite flat_sum_rank, hits_succ; [lia |].
    eapply Forall_impl; [exact H | cbv beta; lia].
Qed.

Lemma slice_to_transpose (k : Z) (m : nat) (pred : list (list nat))
    (tgt : list nat) :
  0 <= k <= Z.of_nat m ->
  slice_to k (eq_rows (transpose m pred) tgt)
  = eq_rows (transpose (Z.to_nat k) pred) tgt.
Proof.
  intros Hk. unfold slice_to. destruct (k <? 0) eqn:E; [lia |].
  unfold eq_rows, transpose. rewrite !List.firstn_map, take_seq.
  now replace (Nat.min (Z.to_nat k) m) with (Z.to_nat k) by lia.
Qed.

Lemma max_of_bound (topk : list Z) (maxk : Z) :
  max_of topk = Done maxk -> Forall (fun k => k <= maxk) topk.
Proof.
  destruct topk as [| k ks]; [discriminate |]. cbn [max_of]. intros [= <-].
  assert (forall l a, a <= fold_left Z.max l a /\
                      Forall (fun x => x <= fold_left Z.max l a) l) as Hfold.
  { induction l as [| x l IHl]; intros a; cbn [fold_left].
    - split; [lia | constructor].
    - destruct (IHl (Z.max a x)) as [H1 H2]. split; [lia |].
      constructor; [lia | exact H2]. }
  destruct (Hfold ks k) as [H1 H2]. now constructor.
Qed.

(** A row of [correct] has at most one entry per target. *)
Lemma eq_rows_width (pred_t : list (list nat)) (tgt : list nat) :
  Forall (fun row => (length row <= length tgt)%nat) (eq_rows pred_t tgt).
Proof.
  unfold eq_rows. apply List.Forall_forall. intros row Hin.
  apply in_map_iff in Hin. destruct Hin as (r & <- & _).
  rewrite length_map, List.length_combine. lia.
Qed.

(** A slice is viewable when the tensor is contiguous or the batch has at
    most one sample. *)
Lemma viewable_slice (ly : layout) (k : Z) (pred_t : list (list nat))
    (tgt : list nat) :
  ly = Contiguous \/ (length tgt <= 1)%nat ->
  viewable ly (slice_to k (eq_rows pred_t tgt)) = true.
Proof.
  intros [-> | Hone]; [reflexivity |]. destruct ly; [reflexivity |].
  cbn [viewable]. apply orb_true_iff. right. apply Nat.leb_le.
  pose proof (eq_rows_width pred_t tgt) as Hw.
  assert (Forall (fun row : list bool => (length row <= length tgt)%nat)
            (slice_to k (eq_rows pred_t tgt))) as Hs
    by (unfold slice_to; destruct (k <? 0); now apply Forall_take).
  destruct (slice_to k (eq_rows pred_t tgt)) as [| row rows]; [cbn; lia |].
  apply Forall_cons in Hs. cbn [hd]. lia.
Qed.

Lemma precisions_value (ly : layout) (pred : list (list nat)) (tgt : list nat)
    (m : nat) (B : Z) (topk : list Z) :
  B <> 0 ->
  Forall (fun row => length row = m) pred ->
  Forall (fun k => 0 <= k <= Z.of_nat m) topk ->
  ly = Contiguous \/ (length tgt <= 1)%nat ->
  precisions ly (eq_rows (transpose m pred) tgt) B topk
  = Done (map (fun k => (inject_Z (Z.of_nat (hits (Z.to_nat k) pred tgt))
                         * (100 / inject_Z B))%Q) topk).
Proof.
  intros HB Hrows Hk Hview. induction topk as [| k ks IH]; [reflexivity |].
  apply Forall_cons in Hk. destruct Hk as [Hk Hks].
  cbn [precisions map]. rewrite (viewable_slice ly k _ tgt Hview). cbn [negb].
  destruct (B =? 0) eqn:E; [lia |].
  rewrite (IH Hks). cbn [and_next].
  rewrite slice_to_transpose by exact Hk.
  rewrite flat_sum_ranks; [reflexivity |].
  eapply Forall_impl; [exact Hrows |]. cbv beta. intros row ->. lia.
Qed.

(** The value of [accuracy] on a batch that is not empty, where the slices
    of [correct] can be viewed. *)
Lemma accuracy_value (ly : layout) (topk_of : Z -> outcome (list (list nat)))
    (tgt : list nat) (topk : list Z) (maxk : Z) (pred : list (list nat)) :
  ly = Contiguous \/ length tgt = 1%nat ->
  max_of topk = Done maxk ->
  Forall (fun k => 0 <= k) topk ->
  tgt <> [] ->
  topk_of maxk = Done pred ->
  length pred = length tgt ->
  Forall (fun row => length row = Z.to_nat maxk) pred ->
  accuracy ly topk_of tgt topk
  = Done (map (fun k => (inject_Z (Z.of_nat (hits (Z.to_nat k) pred tgt))
                         * (100 / inject_Z (Z.of_nat (length tgt))))%Q) topk).
Proof.
  intros Hview Hmax Hpos Hne Hpred Hlen Hrows. unfold accuracy.
  rewrite Hmax. cbn [and_next]. rewrite Hpred. cbn [and_next].
  unfold expand_target. rewrite Hlen, Nat.eqb_refl. cbn [and_next].
  apply precisions_value; [| exact Hrows | |].
  - destruct tgt; [congruence | cbn; lia].
  - pose proof (max_of_bound topk maxk Hmax) as Hb.
    apply Forall_forall. intros k Hin.
    rewrite Forall_forall in Hpos, Hb.
    specialize (Hpos k Hin). specialize (Hb k Hin). lia.
  - destruct Hview as [-> | ->]; [now left | right; lia].
Qed.




End Accuracy.





(** X16: on an empty batch [accuracy] stops on the division by the batch
    size, whatever values of [k] are asked for. *)
Theorem accuracy_fails_on_empty_batch (ly : Metrics.layout)
    (topk_of : Z -> Metrics.outcome (list (list nat))) (topk : list Z)
    (maxk : Z) :
  Metrics.max_of topk = Metrics.Done maxk ->
  topk_of maxk = Metrics.Done [] ->
  Metrics.accuracy ly topk_of [] topk
  = Metrics.Failed (Metrics.Python ZeroDivisionError).
Proof.
  intros Hmax Hpred. unfold Metrics.accuracy.
  rewrite Hmax. cbn [Metrics.and_next]. rewrite Hpred.
  destruct topk as [| k ks]; [discriminate |].
  cbn [Metrics.and_next Metrics.expand_target length Nat.eqb Metrics.precisions].
  rewrite (viewable_slice ly k _ []) by (right; cbn; lia). reflexivity.
Qed.

Lemma accuracy_fails_on_empty_batch_witness :
  Metrics.accuracy Metrics.Transposed (fun _ => Metrics.Done []) [] [1; 5]
  = Metrics.Failed (Metrics.Python ZeroDivisionError).
Proof.
  apply (accuracy_fails_on_empty_batch _ _ _ 5); reflexivity.
Defined.

(** ** Validation *)

Section Validation.

Import Metrics.

Lemma update_positive (m : AverageMeter) (v : Q) (n : Z) :
  0 <= count m -> 0 < n ->
  exists m', update m v n = Done m' /\ 0 <= count m'.
Proof.
  intros Hc Hn. unfold update. destruct (count m + n =? 0) eqn:E; [lia |].
  eexists. split; [reflexivity | cbn; lia].
Qed.

Lemma validate_batch_result (ly : layout) (pf i : Z)
    (bp : Batch * list (list nat)) (m : Meters) :
  well_formed bp ->
  ly = Contiguous \/ length (target (fst bp)) = 1%nat ->
  0 <= count (losses m) -> 0 <= count (top1 m) -> 0 <= count (top5 m) ->
  exists m',
    validate_batch ly pf i (fst bp) m
    = (if pf =? 0 then Failed (Python ZeroDivisionError) else Done m') /\
    update (top1 m) (fst (top1_update bp)) (snd (top1_update bp))
    = Done (top1 m') /\
    0 <= count (losses m') /\ 0 <= count (top1 m') /\ 0 <= count (top5 m').
Proof.
  intros (Hne & Hsize & Hpred & Hlen & Hrows) Hview Hl H1 H5.
  unfold validate_batch.
  rewrite (accuracy_value ly (output_topk (fst bp)) (target (fst bp)) [1; 5] 5
             (snd bp)); try assumption; try reflexivity;
    [| repeat constructor; lia].
  cbn [and_next map].
  assert (0 < input_size (fst bp)) as Hn.
  { rewrite Hsize. destruct (target (fst bp)); [congruence | cbn; lia]. }
  destruct (update_positive (losses m) (loss (fst bp)) _ Hl Hn) as (l' & -> & Hl').
  cbn [and_next].
  destruct (update_positive (top1 m) (fst (top1_update bp)) _ H1 Hn)
    as (t1 & Ht1 & H1').
  unfold top1_update in Ht1 at 1. cbn [fst] in Ht1.
  change (Z.to_nat 1) with 1%nat. rewrite Ht1. cbn [and_next].
  match goal with
  | |- context [update (top5 m) ?v ?n] =>
      destruct (update_positive (top5 m) v n H5 Hn) as (t5 & -> & H5')
  end.
  cbn [and_next].
  exists {| losses := l'; top1 := t1; top5 := t5 |}.
  split; [reflexivity |]. cbn [losses top1 top5].
  unfold top1_update. cbn [fst snd]. auto.
Qed.






End Validation.



(** The loader above, evaluated on a contiguous [correct]: one of two samples
    is right at rank 1, both are within the first five. *)
Example validate_sample_value :
  Metrics.validate Metrics.Contiguous 10 [Metrics.sample_batch]
  = Metrics.Done ((0 + inject_Z 1 * (100 / inject_Z 2) * inject_Z 2)
                  / inject_Z (0 + 2))%Q.
Proof. reflexivity. Qed.

(** X18: with a print frequency of zero, [validate] on a loader whose first
    batch is well formed, and either has one sample or meets a library whose
    [eq] returns a contiguous tensor, stops on [i % args.print_freq] after
    that batch, and returns no precision. *)
Theorem validate_stops_on_zero_print_freq (ly : Metrics.layout)
    (bp : Metrics.Batch * list (list nat)) (rest : list Metrics.Batch) :
  Metrics.well_formed bp ->
  ly = Metrics.Contiguous \/ length (Metrics.target (fst bp)) = 1%nat ->
  Metrics.validate ly 0 (fst bp :: rest)
  = Metrics.Failed (Metrics.Python ZeroDivisionError).
Proof.
  intros Hbp Hview.
  unfold Metrics.validate. cbn [Metrics.validate_loop].
  destruct (validate_batch_result ly 0 0 bp
              {| Metrics.losses := Metrics.reset; Metrics.top1 := Metrics.reset;
                 Metrics.top5 := Metrics.reset |} Hbp Hview)
    as (m' & -> & _); try (cbn; lia).
  reflexivity.
Qed.

Lemma validate_stops_on_zero_print_freq_witness :
  Metrics.validate Metrics.Transposed 0
    [Metrics.single_batch; Metrics.sample_batch]
  = Metrics.Failed (Metrics.Python ZeroDivisionError).
Proof.
  apply (validate_stops_on_zero_print_freq Metrics.Transposed
           (Metrics.single_batch, Metrics.single_pred) [Metrics.sample_batch]).
  - repeat constructor; discriminate.
  - now right.
Defined.

(** ** The best-model copy *)

(** X19: [save_checkpoint] fails in one way only: with [FileNotFoundError]
    on the bare file name, when a copy is due, the prefix directory is not
    the working directory and the working directory has no such file; in
    every other case it returns normally. *)
Theorem save_checkpoint_failure_mode (px : Paths) (args : Args)
    (state : Checkpoint) (is_best : bool) (epoch : Z) (fs : FS) :
  let out := save_checkpoint px args state is_best epoch "checkpoint.pth.tar" fs in
  snd out = Ok tt \/
  (snd out = Raise (FileNotFoundError "checkpoint.pth.tar") /\
   is_best || snapshot_due args epoch = true /\
   dir_of px (prefix args) <> cwd px /\
   fs !! bare px "checkpoint.pth.tar" = None).
Proof.
  cbv zeta. unfold save_checkpoint, joined, bare.
  rewrite (file_at_plain px _ "checkpoint.pth.tar") by reflexivity.
  rewrite (file_at_plain px _ "checkpoint.pth.tar") by reflexivity.
  rewrite (file_at_plain px _ "model_best.pth.tar") by reflexivity.
  rewrite (file_at_plain px _ _ (has_sep_epoch_name epoch)).
  destruct (epoch_name_fresh (format_03d epoch +:+ ".pth.tar")) as [Hn1 Hn2].
  generalize dependent ("epoch" +:+ format_03d epoch +:+ ".pth.tar").
  intros ename Hn1 Hn2.
  generalize (dir_of px (prefix args)) (cwd px) (snapshot_due args epoch).
  intros pd wd due.
  unfold and_then, when, torch_save, copyfile.
  destruct (decide (pd = wd)) as [-> | Hd].
  - left. destruct is_best, due; fs_crush.
  - destruct (fs !! (wd, "checkpoint.pth.tar")) eqn:E.
    + left. destruct is_best, due; fs_crush.
    + destruct is_best, due; cbn [orb];
        first [ left; fs_crush; fail
              | right; fs_crush ].
Qed.

Section BestModel.

Variables (px : Paths) (args : Args) (tr : Training) (lrs : list Q).
Hypothesis in_cwd : dir_of px (prefix args) = cwd px.

(** Without an improvement the best-model file stays as it is. *)
Lemma save_checkpoint_keeps_best (state : Checkpoint) (epoch : Z) (fs : FS) :
  fst (save_checkpoint px args state false epoch "checkpoint.pth.tar" fs)
    !! joined px (prefix args) "model_best.pth.tar"
  = fs !! joined px (prefix args) "model_best.pth.tar".
Proof.
  unfold save_checkpoint, joined, bare.
  rewrite (file_at_plain px _ "checkpoint.pth.tar") by reflexivity.
  rewrite (file_at_plain px _ "checkpoint.pth.tar") by reflexivity.
  rewrite (file_at_plain px _ "model_best.pth.tar") by reflexivity.
  rewrite (file_at_plain px _ _ (has_sep_epoch_name epoch)).
  destruct (epoch_name_fresh (format_03d epoch +:+ ".pth.tar")) as [Hn1 Hn2].
  generalize dependent ("epoch" +:+ format_03d epoch +:+ ".pth.tar").
  intros ename Hn1 Hn2.
  generalize (dir_of px (prefix args)) (cwd px) (snapshot_due args epoch).
  intros pd wd due.
  unfold and_then, when, torch_save, copyfile.
  destruct due; cbn [fst snd];
    repeat first
      [ progress cbn [fst snd]
      | progress simplify_eq
      | rewrite lookup_insert_ne by congruence
      | case_match ];
    reflexivity.
Qed.

(** One iteration: the best-model file and [best_prec1] stay, or the file
    holds the dictionary of this epoch with the new [best_prec1]. *)
Lemma epoch_body_best_file (e : Z) (st : RunState) :
  let st' := fst (epoch_body px args tr lrs e st) in
  (files st' !! joined px (prefix args) "model_best.pth.tar"
   = files st !! joined px (prefix args) "model_best.pth.tar" /\
   (best_prec1 st' == best_prec1 st)%Q) \/
  files st' !! joined px (prefix args) "model_best.pth.tar"
  = Some (save_dict args tr e (best_prec1 st')).
Proof.
  cbv zeta.
  destruct (epoch_body_cases px args tr lrs e st)
    as [(_ & Hb & Hf & _) | (Hb & Hf & _)]; cbv zeta in Hb, Hf;
    rewrite Hb, Hf; [left; split; reflexivity |].
  destruct (gt (prec1_of tr e) (best_prec1 st)) eqn:Eg.
  - right.
    exact (proj1 (proj2 (proj1 (proj2 (save_checkpoint_cases px args
      (save_dict args tr e (py_max (prec1_of tr e) (best_prec1 st)))
      true e (files st))) in_cwd)) eq_refl).
  - left. split; [apply save_checkpoint_keeps_best |].
    unfold py_max. unfold gt in Eg. apply negb_false_iff in Eg.
    apply Qle_bool_iff in Eg.
    unfold gt. destruct (Qle_bool (best_prec1 st) (prec1_of tr e)) eqn:E2;
      cbn [negb]; [| reflexivity].
    apply Qle_bool_iff in E2. now apply Qle_antisym.
Qed.

Lemma epoch_loop_best_file (k : nat) (a : Z) (st : RunState) :
  let st' := fst (epoch_loop px args tr lrs (py_range a (a + Z.of_nat k)) st) in
  (files st' !! joined px (prefix args) "model_best.pth.tar"
   = files st !! joined px (prefix args) "model_best.pth.tar" /\
   (best_prec1 st' == best_prec1 st)%Q) \/
  (exists ck e,
      files st' !! joined px (prefix args) "model_best.pth.tar" = Some ck /\
      a <= e < a + Z.of_nat k /\
      ck_epoch ck = e + 1 /\
      ck_state_dict ck = state_dict_after tr e /\
      (ck_best_prec1 ck == best_prec1 st')%Q).
Proof.
  cbv zeta. induction k as [| k IH].
  - left. rewrite py_range_nil by lia. split; reflexivity.
  - rewrite py_range_snoc, epoch_loop_app.
    destruct (epoch_loop px args tr lrs (py_range a (a + Z.of_nat k)) st)
      as [st1 [[] | err]]; cbn [fst snd] in *.
    + rewrite epoch_loop_one.
      destruct (epoch_body_best_file (a + Z.of_nat k) st1) as [[Hf Hb] | Hnew];
        cbv zeta in *.
      * destruct IH as [[IHf IHb] | IH].
        -- left. split; [now rewrite Hf | now rewrite Hb].
        -- right. destruct IH as (ck & e & Hck & He & H1 & H2 & H3).
           exists ck, e. rewrite Hf, Hb. repeat split; try assumption; lia.
      * right. eexists _, (a + Z.of_nat k). split; [exact Hnew |].
        cbn [save_dict ck_epoch ck_state_dict ck_best_prec1].
        repeat split; lia.
    + destruct IH as [IH | (ck & e & Hck & He & H)]; [now left |].
      right. exists ck, e. split; [exact Hck |]. split; [lia | exact H].
Qed.

End BestModel.

(** X20: after a training run in the working directory (cadence not zero),
    either no epoch improved on the precision the run started with, and
    [model_best.pth.tar] is the file it was before the run, or
    [model_best.pth.tar] holds the checkpoint of one of the run's epochs,
    and the precision stored in it is the run's final [best_prec1]. *)
Theorem model_best_holds_the_best (px : Paths) (args : Args) (tr : Training)
    (groups : builder_state) (fs : FS) (start : Z) (best : Q) :
  lr_decay args <> 0 ->
  dir_of px (prefix args) = cwd px ->
  evaluate args = false ->
  resume_from px args fs = Ok (start, best) ->
  let st := fst (run px args tr groups fs) in
  (files st !! joined px (prefix args) "model_best.pth.tar"
   = fs !! joined px (prefix args) "model_best.pth.tar" /\
   (best_prec1 st == best)%Q) \/
  (exists ck e,
      files st !! joined px (prefix args) "model_best.pth.tar" = Some ck /\
      start <= e < epochs args /\
      ck_epoch ck = e + 1 /\
      ck_state_dict ck = state_dict_after tr e /\
      (ck_best_prec1 ck == best_prec1 st)%Q).
Proof.
  intros _ Hd He Hr. cbv zeta. unfold run. rewrite Hr, He.
  rewrite py_range_as_nat.
  destruct (epoch_loop_best_file px args tr (snd groups) Hd
              (Z.to_nat (epochs args - start)) start
              {| best_prec1 := best; param_groups := fst groups;
                 files := fs; trained := [] |}) as [H | H].
  - left. exact H.
  - right. destruct H as (ck & e & Hck & Hrange & H). exists ck, e.
    split; [exact Hck |]. split; [lia | exact H].
Qed.

Lemma model_best_holds_the_best_witness :
  let args := with_files default_args "." "" 3 in
  let st := fst (run two_dirs args sample_training ([], [1 # 10]%Q) ∅) in
  (files st !! joined two_dirs (prefix args) "model_best.pth.tar"
   = (∅ : FS) !! joined two_dirs (prefix args) "model_best.pth.tar" /\
   (best_prec1 st == 0)%Q) \/
  (exists ck e,
      files st !! joined two_dirs (prefix args) "model_best.pth.tar" = Some ck /\
      0 <= e < epochs args /\
      ck_epoch ck = e + 1 /\
      ck_state_dict ck = state_dict_after sample_training e /\
      (ck_best_prec1 ck == best_prec1 st)%Q).
Proof.
  cbv zeta.
  apply (model_best_holds_the_best two_dirs (with_files default_args "." "" 3)
           sample_training ([], [1 # 10]%Q) ∅ 0 0%Q);
    first [discriminate | reflexivity].
Defined.
